(** * A shallow embedding of sentrybot (src/main.py, class SentryBot)

    The Discord bot relays questions to the Claude API, lets the model call
    Sentry MCP tools, and keeps a short per-user-per-channel memory.  The
    external services (Discord, Anthropic, the MCP session, the wall clock)
    are oracles; everything the bot computes itself is written out below. *)

From stdpp Require Import base gmap strings list pretty.
From Stdlib Require Import ZArith Lia Sorting.Sorted Strings.Ascii.

Open Scope Z_scope.

(* ------------------------------------------------------------------ *)
(** ** Conversation memory: [SentryBot.__init__], [get_memory_key],
       [add_to_memory], [get_conversation_history] *)

(** A stored message dict {"role", "content", "timestamp"}; the timestamp is
    [datetime.now()] in microseconds. *)
Record turn := mk_turn {
  role : string;
  content : string;
  timestamp : Z
}.

(** The fields of [ctx] (or of a Discord message) the bot reads. *)
Record context := mk_context {
  author_id : string;
  channel_id : string
}.

(** [deque(maxlen=10)] *)
Definition memory_maxlen : nat := 10.

(** [timedelta(hours=2)] in microseconds. *)
Definition memory_timeout : Z := 2 * 3600 * 1000000.

(** [collections.deque.append] on a bounded deque: when full, the leftmost
    element is discarded. *)
Definition deque_append {A} (maxlen : nat) (d : list A) (x : A) : list A :=
  let d' := d ++ [x] in
  if Nat.ltb maxlen (length d') then tail d' else d'.

(** [self.conversation_memory]: a [defaultdict] of deques. *)
Abbreviation memory_store := (gmap string (list turn)).

(** [self.conversation_memory[k]]: a missing key reads as an empty deque. *)
Definition mem_get (m : memory_store) (k : string) : list turn :=
  default [] (m !! k).

(** [get_memory_key]: option 3, per user per channel. *)
Definition get_memory_key (ctx : context) : string :=
  ("user_" ++ author_id ctx ++ "_channel_" ++ channel_id ctx)%string.

(** [add_to_memory ctx role content] at wall-clock time [now]. *)
Definition add_to_memory (m : memory_store) (ctx : context)
    (r c : string) (now : Z) : memory_store :=
  let k := get_memory_key ctx in
  <[k := deque_append memory_maxlen (mem_get m k) (mk_turn r c now)]> m.

(** The condition of the [while] loop: [now - memory[0]["timestamp"] >
    self.memory_timeout]. *)
Definition expired (now : Z) (t : turn) : bool :=
  Z.ltb memory_timeout (now - timestamp t).

(** [while memory and now - memory[0]["timestamp"] > timeout: popleft()] *)
Fixpoint evict_expired (now : Z) (d : list turn) : list turn :=
  match d with
  | [] => []
  | t :: r => if expired now t then evict_expired now r else d
  end.

(** A message of the Claude conversation: {"role", "content"}.  The content
    is a string for history and user text, the response's content blocks for
    an assistant reply, or the tool_result blocks for a tool turn. *)
Inductive block :=
  | TextBlock (text : string)
  | ToolUseBlock (id name input : string)
  | OtherBlock (type : string).

Record tool_result := mk_tool_result {
  tool_use_id : string;
  result_content : string
}.

Inductive message_content :=
  | MText (s : string)
  | MBlocks (bs : list block)
  | MToolResults (rs : list tool_result).

Record message := mk_message {
  mrole : string;
  mcontent : message_content
}.

Definition turn_to_message (t : turn) : message :=
  mk_message (role t) (MText (content t)).

(** [get_conversation_history ctx] at time [now]: the evicted deque is stored
    back (the deque is mutated in place), and the converted list returned. *)
Definition get_conversation_history (m : memory_store) (ctx : context)
    (now : Z) : memory_store * list message :=
  let k := get_memory_key ctx in
  let memory := evict_expired now (mem_get m k) in
  (<[k := memory]> m, map turn_to_message memory).

(** [forget]: [conversation_memory[k].clear()]. *)
Definition forget (m : memory_store) (ctx : context) : memory_store :=
  <[get_memory_key ctx := []]> m.

(** Memory operations as the bot performs them over its lifetime. *)
Inductive mem_op :=
  | OpAdd (ctx : context) (r c : string) (now : Z)
  | OpRead (ctx : context) (now : Z)
  | OpForget (ctx : context).

Definition run_mem_op (m : memory_store) (op : mem_op) : memory_store :=
  match op with
  | OpAdd ctx r c now => add_to_memory m ctx r c now
  | OpRead ctx now => fst (get_conversation_history m ctx now)
  | OpForget ctx => forget m ctx
  end.

Definition run_mem_ops (m : memory_store) (ops : list mem_op) : memory_store :=
  fold_left run_mem_op ops m.

(** The last [n] elements of a list. *)
Definition lastn {A} (n : nat) (l : list A) : list A :=
  skipn (length l - n) l.

(** The turns an append-only sequence adds under key [k], in order. *)
Fixpoint appended_turns (k : string) (ops : list (context * string * string * Z))
    : list turn :=
  match ops with
  | [] => []
  | (ctx, r, c, now) :: rest =>
      (if String.eqb (get_memory_key ctx) k then [mk_turn r c now] else [])
        ++ appended_turns k rest
  end.

Definition run_appends (m : memory_store)
    (ops : list (context * string * string * Z)) : memory_store :=
  fold_left (fun m '(ctx, r, c, now) => add_to_memory m ctx r c now) ops m.

(* ------------------------------------------------------------------ *)
(** ** Response dispatch: the [ask] command and [on_message]

    [if len(response) > 2000: for i in range(0, len(response), 2000):
       send(response[i:i+2000])  else: send(response)].
    A Python [str] is a sequence of code points, here a list over [char]. *)

Section Dispatch.
Context {char : Type}.

(** [range(i, stop, step)] for [step > 0]; [fuel] bounds the iterations. *)
Fixpoint range_go (fuel : nat) (i stop step : nat) : list nat :=
  match fuel with
  | O => []
  | S f => if Nat.ltb i stop then i :: range_go f (i + step) stop step else []
  end.

Definition py_range (start stop step : nat) : list nat :=
  range_go (stop - start) start stop step.

(** [s[i:j]] for [0 <= i <= j]. *)
Definition py_slice (s : list char) (i j : nat) : list char :=
  firstn (j - i) (skipn i s).

Definition discord_limit : nat := 2000.

(** The messages sent, in order. *)
Definition dispatch (response : list char) : list (list char) :=
  if Nat.ltb discord_limit (length response) then
    map (fun i => py_slice response i (i + discord_limit))
        (py_range 0 (length response) discord_limit)
  else [response].

End Dispatch.

(* ------------------------------------------------------------------ *)
(** ** The bot's configuration: [connect_to_sentry] and [status] *)

(** A tool dict {"name", "description", "input_schema"}. *)
Record tool_desc := mk_tool_desc {
  tool_name : string;
  tool_description : string;
  input_schema : string
}.

(** [self.sentry_session] (present or [None]) and [self.sentry_tools]. *)
Record bot_config := mk_bot_config {
  sentry_session : bool;
  sentry_tools : list tool_desc
}.

(** [SentryBot.__init__]: [sentry_session = None], [sentry_tools = []]. *)
Definition initial_config : bot_config := mk_bot_config false [].

(** What the MCP handshake does: [stdio_client], [ClientSession],
    [initialize] and [list_tools] all succeed and yield the tools, or one of
    them raises. *)
Inductive handshake :=
  | HandshakeOk (tools : list tool_desc)
  | HandshakeFail (error : string).

(** [connect_to_sentry]: on any exception, [sentry_session = None]; the tool
    list is assigned only after [list_tools] returns. *)
Definition connect_to_sentry (cfg : bot_config) (h : handshake) : bot_config :=
  match h with
  | HandshakeOk ts => mk_bot_config true ts
  | HandshakeFail _ => mk_bot_config false (sentry_tools cfg)
  end.

(** The [status] command's reply. *)
Definition status (cfg : bot_config) : string :=
  if sentry_session cfg then
    ("‚úÖ Connected to Sentry with " ++ pretty (length (sentry_tools cfg))
       ++ " tools available")%string
  else "‚ùå Not connected to Sentry".

(* ------------------------------------------------------------------ *)
(** ** Effects: the wall clock, the Claude API, the MCP tool calls

    [ask_claude_with_memory] runs in a state and exception monad.  The state
    holds the memory store, the trace of external calls, and the number of
    clock reads made so far. *)

(** The keyword arguments of [claude_client.messages.create]. *)
Record claude_params := mk_claude_params {
  cp_model : string;
  cp_max_tokens : nat;
  cp_messages : list message;
  cp_system : string;
  cp_tools : option (list tool_desc)
}.

Inductive event :=
  | EvQuery (p : claude_params)
  | EvCallTool (name input : string).

Record world := mk_world {
  w_memory : memory_store;
  w_trace : list event;
  w_clk : nat
}.

Inductive result (A : Type) :=
  | Ok (a : A)
  | Exc (msg : string).
Arguments Ok {A} a.
Arguments Exc {A} msg.

Definition M (A : Type) : Type := world -> result A * world.

Global Instance M_ret : MRet M := fun A a w => (Ok a, w).
Global Instance M_bind : MBind M := fun A B k c w =>
  match c w with
  | (Ok a, w') => k a w'
  | (Exc e, w') => (Exc e, w')
  end.

(** [try: body except Exception as e: handler(str(e))]: the state reached
    before the exception is kept. *)
Definition catch {A} (c : M A) (h : string -> M A) : M A := fun w =>
  match c w with
  | (Ok a, w') => (Ok a, w')
  | (Exc e, w') => h e w'
  end.

(** The Claude API answers with content blocks or raises. *)
Inductive llm_outcome :=
  | LLMOk (content : list block)
  | LLMExc (error : string).

(** [sentry_session.call_tool] returns the result's text contents or raises. *)
Inductive tool_outcome :=
  | ToolOk (contents : list string)
  | ToolExc (error : string).

Section Bot.

(** The external services, as functions of everything the bot has sent out
    so far: the answer of the Claude API, of the MCP server, and the wall
    clock at its [n]-th read. *)
Variable llm : list event -> claude_params -> llm_outcome.
Variable call_tool : list event -> string -> string -> tool_outcome.
Variable clock : nat -> Z.

(** [datetime.now()] *)
Definition now_m : M Z := fun w =>
  (Ok (clock (w_clk w)), mk_world (w_memory w) (w_trace w) (S (w_clk w))).

Definition log (e : event) : M unit := fun w =>
  (Ok tt, mk_world (w_memory w) (w_trace w ++ [e]) (w_clk w)).

Definition query_llm (p : claude_params) : M (list block) := fun w =>
  let tr := w_trace w in
  let w' := mk_world (w_memory w) (tr ++ [EvQuery p]) (w_clk w) in
  match llm tr p with
  | LLMOk bs => (Ok bs, w')
  | LLMExc e => (Exc e, w')
  end.

Definition call_tool_m (name input : string) : M tool_outcome := fun w =>
  let tr := w_trace w in
  (Ok (call_tool tr name input),
   mk_world (w_memory w) (tr ++ [EvCallTool name input]) (w_clk w)).

Definition modify_memory (f : memory_store -> memory_store) : M unit := fun w =>
  (Ok tt, mk_world (f (w_memory w)) (w_trace w) (w_clk w)).

Definition get_memory : M memory_store := fun w => (Ok (w_memory w), w).

(** [self.add_to_memory(ctx, role, content)] *)
Definition add_to_memory_m (ctx : context) (r c : string) : M unit :=
  now ← now_m; modify_memory (fun m => add_to_memory m ctx r c now).

(** [self.get_conversation_history(ctx)] *)
Definition get_conversation_history_m (ctx : context) : M (list message) :=
  now ← now_m;
  m ← get_memory;
  let '(m', msgs) := get_conversation_history m ctx now in
  modify_memory (fun _ => m');; mret msgs.

(** The [for content in response.content] loop that runs the tool calls:
    a [tool_use] block is executed only when [self.sentry_session] is set;
    an exception of the call, or of reading its result, becomes an
    ["Error: ..."] result. *)
Definition render_tool_outcome (o : tool_outcome) : string :=
  match o with
  | ToolOk (c :: _) => c
  | ToolOk [] => "No result"
  | ToolExc e => ("Error: " ++ e)%string
  end.

Fixpoint run_tool_calls (session : bool) (bs : list block)
    (tool_calls_made : bool) (tool_results : list tool_result)
    : M (bool * list tool_result) :=
  match bs with
  | [] => mret (tool_calls_made, tool_results)
  | ToolUseBlock id name input :: rest =>
      if session then
        o ← call_tool_m name input;
        run_tool_calls session rest true
          (tool_results ++ [mk_tool_result id (render_tool_outcome o)])
      else run_tool_calls session rest tool_calls_made tool_results
  | _ :: rest => run_tool_calls session rest tool_calls_made tool_results
  end.

(** [final_text += content.text] over the [text] blocks. *)
Fixpoint final_text (bs : list block) : string :=
  match bs with
  | [] => ""
  | TextBlock t :: rest => (t ++ final_text rest)%string
  | _ :: rest => final_text rest
  end.

(** The system prompt, up to its first sentence (the claims do not read it). *)
Definition system_prompt : string :=
  "You are a helpful assistant that can answer questions about Sentry data.".
Definition claude_model : string := "claude-3-5-sonnet-20241022".
Definition max_iterations : nat := 10.
Definition fallback_message : string := "I couldn't process that request.".
Definition too_many_steps_message : string :=
  "Sorry, the request took too many steps to complete.".
Definition error_prefix : string := "Sorry, I encountered an error: ".

(** [claude_params], with ["tools"] only when [tools] is non-empty. *)
Definition make_claude_params (messages : list message) (tools : list tool_desc)
    : claude_params :=
  mk_claude_params claude_model 1000 messages system_prompt
    (match tools with [] => None | _ => Some tools end).

(** The [while iteration < max_iterations] loop; [fuel] is the number of
    iterations left, [max_iterations - iteration] when called from
    [ask_claude_with_memory]. *)
Fixpoint conversation_loop (cfg : bot_config) (ctx : context)
    (tools : list tool_desc) (fuel iteration : nat) (messages : list message)
    : M string :=
  match fuel with
  | O => mret too_many_steps_message
  | S fuel' =>
      if Nat.ltb iteration max_iterations then
        let iteration := S iteration in
        content ← query_llm (make_claude_params messages tools);
        let messages := messages ++ [mk_message "assistant" (MBlocks content)] in
        '((made, tool_results) : bool * list tool_result) ←
          run_tool_calls (sentry_session cfg) content false [];
        if made then
          conversation_loop cfg ctx tools fuel' iteration
            (messages ++ [mk_message "user" (MToolResults tool_results)])
        else
          let ft := final_text content in
          (if String.eqb ft "" then mret tt
           else add_to_memory_m ctx "assistant" ft);;
          mret (if String.eqb ft "" then fallback_message else ft)
      else mret too_many_steps_message
  end.

(** The tools offered to Claude: [if self.sentry_session and self.sentry_tools]. *)
Definition offered_tools (cfg : bot_config) : list tool_desc :=
  if sentry_session cfg then sentry_tools cfg else [].

(** The body of the [try] block of [ask_claude_with_memory]. *)
Definition ask_body (cfg : bot_config) (ctx : context) (user_message : string)
    : M string :=
  messages ← get_conversation_history_m ctx;
  let messages := messages ++ [mk_message "user" (MText user_message)] in
  add_to_memory_m ctx "user" user_message;;
  conversation_loop cfg ctx (offered_tools cfg) max_iterations 0 messages.

Definition ask_claude_with_memory (cfg : bot_config) (ctx : context)
    (user_message : string) : M string :=
  catch (ask_body cfg ctx user_message)
    (fun e => mret (error_prefix ++ e)%string).

End Bot.

(* ------------------------------------------------------------------ *)
(** ** [SentryBot.on_message] *)

(** [str.replace(pat, rep)] for a non-empty [pat]: every non-overlapping
    occurrence, scanning from the left. *)
Fixpoint replace_go (fuel : nat) (pat rep s : string) : string :=
  match fuel with
  | O => s
  | S f =>
      match s with
      | EmptyString => EmptyString
      | String c rest =>
          if String.prefix pat s then
            (rep ++ replace_go f pat rep
                      (String.substring (String.length pat) (String.length s) s))%string
          else String c (replace_go f pat rep rest)
      end
  end.

Definition str_replace (s pat rep : string) : string :=
  if String.eqb pat "" then s else replace_go (String.length s) pat rep s.

(** A Python [str] is a sequence of code points; a Rocq [string] holding
    one is its UTF-8 encoding.  [py_str] reads the code points back (a
    malformed byte sequence, which no Python string encodes to, reads as
    U+FFFD), and [of_py_str] encodes them. *)
Definition byte_of (a : Ascii.ascii) : Z := Z.of_nat (Ascii.nat_of_ascii a).

Definition is_cont (b : Z) : bool := (128 <=? b) && (b <? 192).

Fixpoint utf8_decode (bs : list Z) : list Z :=
  match bs with
  | [] => []
  | b :: rest =>
      if b <? 128 then b :: utf8_decode rest
      else if (194 <=? b) && (b <? 224) then
        match rest with
        | c1 :: rest1 =>
            if is_cont c1 then ((b - 192) * 64 + (c1 - 128)) :: utf8_decode rest1
            else 65533 :: utf8_decode rest
        | [] => [65533]
        end
      else if (224 <=? b) && (b <? 240) then
        match rest with
        | c1 :: c2 :: rest2 =>
            if is_cont c1 && is_cont c2 then
              ((b - 224) * 4096 + (c1 - 128) * 64 + (c2 - 128)) :: utf8_decode rest2
            else 65533 :: utf8_decode rest
        | _ => 65533 :: utf8_decode rest
        end
      else if (240 <=? b) && (b <? 245) then
        match rest with
        | c1 :: c2 :: c3 :: rest3 =>
            let cp := (b - 240) * 262144 + (c1 - 128) * 4096 + (c2 - 128) * 64
                      + (c3 - 128) in
            if is_cont c1 && is_cont c2 && is_cont c3 && (cp <? 1114112) then
              cp :: utf8_decode rest3
            else 65533 :: utf8_decode rest
        | _ => 65533 :: utf8_decode rest
        end
      else 65533 :: utf8_decode rest
  end.

Definition utf8_encode_cp (c : Z) : list Z :=
  if c <? 128 then [c]
  else if c <? 2048 then [192 + c / 64; 128 + c mod 64]
  else if c <? 65536 then [224 + c / 4096; 128 + (c / 64) mod 64; 128 + c mod 64]
  else [240 + c / 262144; 128 + (c / 4096) mod 64; 128 + (c / 64) mod 64;
        128 + c mod 64].

Definition py_str (s : string) : list Z :=
  utf8_decode (map byte_of (String.list_ascii_of_string s)).

Definition of_py_str (cps : list Z) : string :=
  String.string_of_list_ascii
    (map (fun b => Ascii.ascii_of_nat (Z.to_nat b)) (flat_map utf8_encode_cp cps)).

(** [str.isspace] on one code point: the characters [str.strip()] removes
    (bidirectional class WS, B or S, or category Zs). *)
Definition is_space (c : Z) : bool :=
  ((9 <=? c) && (c <=? 13)) || ((28 <=? c) && (c <=? 32)) || (c =? 133) || (c =? 160)
  || (c =? 5760) || ((8192 <=? c) && (c <=? 8202)) || (c =? 8232) || (c =? 8233)
  || (c =? 8239) || (c =? 8287) || (c =? 12288).

Fixpoint lstrip_chars (l : list Z) : list Z :=
  match l with
  | [] => []
  | c :: rest => if is_space c then lstrip_chars rest else l
  end.

(** [str.strip()] *)
Definition str_strip (s : string) : string :=
  of_py_str (rev (lstrip_chars (rev (lstrip_chars (py_str s))))).

(** The fields of a [discord.Message] that [on_message] reads. *)
Record discord_message := mk_discord_message {
  msg_from_self : bool;          (** [message.author == self.user] *)
  msg_author : string;           (** [message.author.id] *)
  msg_channel : string;          (** [message.channel.id] *)
  msg_guild : option Z;          (** [message.guild.id]; [None] in a DM *)
  msg_content : string;
  msg_mentions_bot : bool;       (** [self.user.mentioned_in(message)] *)
  msg_is_dm : bool               (** [isinstance(message.channel, DMChannel)] *)
}.

Inductive action :=
  | ProcessCommands
  | Reply (text : string).

Definition raise {A} (e : string) : M A := fun w => (Exc e, w).

Definition command_prefix : string := "!".
Definition greeting : string := "Hello!".

(** [message.reply] over the chunks of [response], cut by code points. *)
Definition reply_chunks (response : string) : list action :=
  map (fun l => Reply (of_py_str l)) (dispatch (py_str response)).

(** [on_message], for the bot user id [bot_id] and the configured
    [DISCORD_SERVER_ID] [server_id].  An exception escaping the handler is
    logged by discord.py and nothing is sent. *)
Definition on_message (llm : list event -> claude_params -> llm_outcome)
    (call_tool : list event -> string -> string -> tool_outcome)
    (clock : nat -> Z) (cfg : bot_config) (bot_id server_id : Z)
    (message : discord_message) : M (list action) :=
  if msg_from_self message then mret []
  else
    match msg_guild message with
    | None => raise "'NoneType' object has no attribute 'id'"
    | Some gid =>
        if negb (Z.eqb gid server_id) then mret []
        else
          if String.prefix command_prefix (msg_content message) then
            mret [ProcessCommands]
          else if msg_mentions_bot message || msg_is_dm message then
            let c := str_strip (str_replace (msg_content message)
                                  ("<@" ++ pretty bot_id ++ ">")%string "") in
            let c := if String.eqb c "" then greeting else c in
            response ← ask_claude_with_memory llm call_tool clock cfg
                         (mk_context (msg_author message) (msg_channel message)) c;
            mret (ProcessCommands :: reply_chunks response)
          else mret [ProcessCommands]
    end.

(* ================================================================== *)
(** * Properties *)

(* ------------------------------------------------------------------ *)
(** ** Dispatch *)

Section DispatchFacts.
Context {char : Type}.
Local Open Scope nat_scope.

Lemma range_go_chunks (s : list char) (fuel i : nat) :
  length s - i <= fuel ->
  concat (map (fun j => py_slice s j (j + discord_limit))
              (range_go fuel i (length s) discord_limit)) = skipn i s.
Proof.
  revert i. induction fuel as [|f IH]; intros i Hf; simpl.
  - rewrite skipn_all2 by lia. reflexivity.
  - destruct (Nat.ltb i (length s)) eqn:Hlt.
    + apply Nat.ltb_lt in Hlt. simpl.
      rewrite IH by (unfold discord_limit; lia).
      unfold py_slice. replace (i + discord_limit - i)%nat with discord_limit by lia.
      rewrite <- (firstn_skipn discord_limit (skipn i s)) at 2.
      f_equal. rewrite skipn_skipn. f_equal. lia.
    + apply Nat.ltb_ge in Hlt. simpl. rewrite skipn_all2 by lia. reflexivity.
Qed.

Lemma dispatch_concat (s : list char) : concat (dispatch s) = s.
Proof.
  unfold dispatch. destruct (Nat.ltb discord_limit (length s)).
  - unfold py_range. rewrite range_go_chunks by lia. reflexivity.
  - simpl. apply app_nil_r.
Qed.

Lemma dispatch_chunk_bound (s : list char) :
  Forall (fun c => length c <= discord_limit)%nat (dispatch s).
Proof.
  unfold dispatch. destruct (Nat.ltb discord_limit (length s)) eqn:Hlt.
  - apply Forall_forall. intros c Hc. apply list_elem_of_In, in_map_iff in Hc.
    destruct Hc as [j [<- _]]. unfold py_slice. rewrite length_firstn. lia.
  - apply Nat.ltb_ge in Hlt. constructor; [exact Hlt | constructor].
Qed.

End DispatchFacts.

(** Claim C7.  [dispatch] (the sending loop of [ask] and [on_message]) cuts a
    response into chunks of at most 2000 characters, sent in order, whose
    concatenation is the response; a response of at most 2000 characters is
    sent as one message; one of 4500 characters as chunks of 2000, 2000 and
    500 characters. *)
Theorem dispatch_chunks_in_order {char : Type} (s : list char) :
  Forall (fun c => length c <= 2000)%nat (dispatch s) /\
  concat (dispatch s) = s /\
  ((length s <= 2000)%nat -> dispatch s = [s]) /\
  (length s = 4500%nat -> map length (dispatch s) = [2000; 2000; 500]%nat).
Proof.
  split; [apply dispatch_chunk_bound|].
  split; [apply dispatch_concat|].
  split.
  - intros Hle. unfold dispatch.
    replace (Nat.ltb discord_limit (length s)) with false
      by (symmetry; apply Nat.ltb_ge; unfold discord_limit; lia).
    reflexivity.
  - intros Hlen. unfold dispatch, py_range. rewrite Hlen. simpl.
    unfold py_slice. rewrite !length_firstn, !length_skipn, Hlen. reflexivity.
Qed.

(* ------------------------------------------------------------------ *)
(** ** Conversation memory *)

Section MemoryFacts.
Local Open Scope nat_scope.

Lemma mem_get_insert (m : memory_store) (k k' : string) (d : list turn) :
  mem_get (<[k := d]> m) k' = if String.eqb k k' then d else mem_get m k'.
Proof.
  unfold mem_get. destruct (String.eqb_spec k k') as [->|Hne].
  - rewrite lookup_insert_eq. reflexivity.
  - rewrite lookup_insert_ne by exact Hne. reflexivity.
Qed.

Lemma mem_get_empty (k : string) : mem_get ∅ k = [].
Proof. unfold mem_get. rewrite lookup_empty. reflexivity. Qed.

Lemma deque_append_length {A} (n : nat) (d : list A) (x : A) :
  (length d <= n)%nat -> (length (deque_append n d x) <= n)%nat.
Proof.
  intros Hd. unfold deque_append.
  destruct (Nat.ltb n (length (d ++ [x]))) eqn:Hlt.
  - rewrite length_app in *. simpl. destruct (d ++ [x]) eqn:E; simpl.
    + lia.
    + apply (f_equal length) in E. rewrite length_app in E. simpl in E. lia.
  - apply Nat.ltb_ge in Hlt. exact Hlt.
Qed.

Lemma evict_expired_suffix (now : Z) (d : list turn) :
  exists pre, d = pre ++ evict_expired now d /\
              Forall (fun t => expired now t = true) pre.
Proof.
  induction d as [|t r [pre [Hpre Hall]]]; simpl.
  - exists []. split; [reflexivity | constructor].
  - destruct (expired now t) eqn:He.
    + exists (t :: pre). split; [simpl; rewrite <- Hpre; reflexivity|].
      constructor; assumption.
    + exists []. split; [reflexivity | constructor].
Qed.

Lemma evict_expired_length (now : Z) (d : list turn) :
  (length (evict_expired now d) <= length d)%nat.
Proof.
  destruct (evict_expired_suffix now d) as [pre [Hpre _]].
  rewrite Hpre at 2. rewrite length_app. lia.
Qed.

Lemma run_mem_op_bounded (m : memory_store) (op : mem_op) :
  (forall k, length (mem_get m k) <= memory_maxlen)%nat ->
  (forall k, length (mem_get (run_mem_op m op) k) <= memory_maxlen)%nat.
Proof.
  intros Hm k. destruct op as [ctx r c now | ctx now | ctx]; simpl.
  - unfold add_to_memory. rewrite mem_get_insert.
    destruct (String.eqb _ k); [apply deque_append_length, Hm | apply Hm].
  - rewrite mem_get_insert. destruct (String.eqb _ k); [|apply Hm].
    etransitivity; [apply evict_expired_length | apply Hm].
  - unfold forget. rewrite mem_get_insert.
    destruct (String.eqb _ k); [simpl; unfold memory_maxlen; lia | apply Hm].
Qed.

Lemma run_mem_ops_bounded (ops : list mem_op) (m : memory_store) :
  (forall k, length (mem_get m k) <= memory_maxlen)%nat ->
  (forall k, length (mem_get (run_mem_ops m ops) k) <= memory_maxlen)%nat.
Proof.
  unfold run_mem_ops. revert m. induction ops as [|op ops IH]; intros m Hm; simpl.
  - exact Hm.
  - apply IH, run_mem_op_bounded, Hm.
Qed.

Lemma tail_skipn {A} (a : nat) (l : list A) : tail (skipn a l) = skipn (S a) l.
Proof.
  revert l. induction a as [|a IH]; intros [|y l]; simpl; try reflexivity.
  apply IH.
Qed.

Lemma deque_append_lastn {A} (n : nat) (l : list A) (x : A) :
  0 < n -> deque_append n (lastn n l) x = lastn n (l ++ [x]).
Proof.
  intros Hn. unfold deque_append, lastn.
  rewrite length_app. simpl.
  rewrite skipn_app.
  replace (length l + 1 - n - length l) with 0 by lia. simpl.
  rewrite length_app, length_skipn. simpl.
  destruct (Nat.ltb n (length l - (length l - n) + 1)) eqn:Hlt.
  - apply Nat.ltb_lt in Hlt.
    destruct (skipn (length l - n) l) as [|y ys] eqn:Hs.
    + apply (f_equal (@length A)) in Hs. rewrite length_skipn in Hs. simpl in Hs. lia.
    + simpl.
      replace (length l + 1 - n - length l) with 0 by lia. simpl.
      replace (length l + 1 - n) with (S (length l - n)) by lia.
      rewrite <- tail_skipn, Hs. reflexivity.
  - apply Nat.ltb_ge in Hlt.
    replace (length l - n) with 0 by lia. simpl.
    replace (length l + 1 - n) with 0 by lia.
    replace (length l + 1 - n - length l) with 0 by lia. reflexivity.
Qed.

Lemma run_appends_lastn (k : string) (ops : list (context * string * string * Z)) :
  forall (m : memory_store) (base : list turn),
    mem_get m k = lastn memory_maxlen base ->
    mem_get (run_appends m ops) k = lastn memory_maxlen (base ++ appended_turns k ops).
Proof.
  unfold run_appends.
  induction ops as [|[[[ctx r] c] now] ops IH]; intros m base Hm;
    cbn [fold_left appended_turns].
  - rewrite app_nil_r. exact Hm.
  - destruct (String.eqb (get_memory_key ctx) k) eqn:Hk.
    + rewrite (IH _ (base ++ [mk_turn r c now])).
      * rewrite <- app_assoc. reflexivity.
      * unfold add_to_memory. rewrite mem_get_insert, Hk.
        rewrite (proj1 (String.eqb_eq _ _) Hk), Hm.
        apply deque_append_lastn. unfold memory_maxlen; lia.
    + apply IH. unfold add_to_memory. rewrite mem_get_insert, Hk. exact Hm.
Qed.

End MemoryFacts.

(** Claim C4.  Under every key, whatever the sequence of appends, reads and
    [forget]s, the stored memory holds at most 10 turns; after a sequence of
    appends the stored deque is exactly the last 10 turns appended under that
    key, in insertion order, and a read returns a suffix of them. *)
Theorem memory_bounded_most_recent :
  (forall (ops : list mem_op) (k : string),
     (length (mem_get (run_mem_ops ∅ ops) k) <= memory_maxlen)%nat) /\
  (forall (ops : list (context * string * string * Z)) (ctx : context) (now : Z),
     let k := get_memory_key ctx in
     mem_get (run_appends ∅ ops) k = lastn memory_maxlen (appended_turns k ops) /\
     exists older visible,
       lastn memory_maxlen (appended_turns k ops) = older ++ visible /\
       snd (get_conversation_history (run_appends ∅ ops) ctx now)
         = map turn_to_message visible).
Proof.
  split.
  - intros ops k. apply run_mem_ops_bounded.
    intros k'. rewrite mem_get_empty. simpl. unfold memory_maxlen. lia.
  - intros ops ctx now k.
    assert (Hst : mem_get (run_appends ∅ ops) k
                  = lastn memory_maxlen (appended_turns k ops)).
    { apply (run_appends_lastn k ops ∅ []). rewrite mem_get_empty. reflexivity. }
    split; [exact Hst|].
    destruct (evict_expired_suffix now (mem_get (run_appends ∅ ops) k))
      as [pre [Hpre _]].
    exists pre, (evict_expired now (mem_get (run_appends ∅ ops) k)).
    split; [rewrite <- Hst; exact Hpre | reflexivity].
Qed.

Lemma evict_expired_head (now : Z) (d : list turn) (t : turn) (rest : list turn) :
  evict_expired now d = t :: rest -> expired now t = false.
Proof.
  induction d as [|t' r IH]; simpl; [discriminate|].
  destruct (expired now t') eqn:He; [exact IH|].
  intros H. injection H as -> _. exact He.
Qed.

Lemma evict_expired_sorted (now : Z) (d : list turn) :
  Sorted (fun a b => timestamp a <= timestamp b) d ->
  Forall (fun t => expired now t = false) (evict_expired now d).
Proof.
  intros Hs. apply Sorted_StronglySorted in Hs;
    [| intros a b c; lia].
  induction Hs as [|t r Hr IH Hall]; simpl; [constructor|].
  destruct (expired now t) eqn:He; [exact IH|].
  constructor; [exact He|].
  unfold expired in *. apply Z.ltb_ge in He.
  rewrite Forall_forall in Hall |- *. intros u Hu.
  specialize (Hall u Hu). apply Z.ltb_ge. lia.
Qed.

(** Two turns stored by a clock that stepped back (for instance the
    fall-back of daylight saving time, [datetime.now()] being local time):
    the first has timestamp 100, the second 50. *)
Definition backward_clock_memory : memory_store :=
  add_to_memory (add_to_memory ∅ (mk_context "1" "2") "user" "a" 100)
    (mk_context "1" "2") "user" "b" 50.

(** Claim C5, code bug.  Contrary to the claim (and to the comment
    "Remove messages older than timeout"), a read does not remove every
    expired turn: read just after the second turn's age exceeds two hours,
    the first turn (still young) stops the eviction loop, and the expired
    second turn is returned and kept. *)
Lemma read_keeps_expired_turn_behind_young_one :
  let now := 50 + memory_timeout + 1 in
  expired now (mk_turn "user" "b" 50) = true /\
  snd (get_conversation_history backward_clock_memory (mk_context "1" "2") now)
    = [mk_message "user" (MText "a"); mk_message "user" (MText "b")] /\
  mem_get (fst (get_conversation_history backward_clock_memory
                  (mk_context "1" "2") now))
          (get_memory_key (mk_context "1" "2"))
    = [mk_turn "user" "a" 100; mk_turn "user" "b" 50].
Proof. vm_compute. repeat split; reflexivity. Qed.

(** What a read does remove: a read removes, and removes from the
    stored deque, the longest run of expired turns at its front: the first
    turn it keeps is not expired, the returned messages are exactly the
    turns kept, and when the stored timestamps are non-decreasing (a clock
    that does not step back) no kept turn is expired. *)
Theorem read_evicts_expired_prefix (m : memory_store) (ctx : context) (now : Z) :
  let k := get_memory_key ctx in
  let kept := mem_get (fst (get_conversation_history m ctx now)) k in
  (exists removed, mem_get m k = removed ++ kept /\
                   Forall (fun t => expired now t = true) removed) /\
  snd (get_conversation_history m ctx now) = map turn_to_message kept /\
  (forall t rest, kept = t :: rest -> expired now t = false) /\
  (Sorted (fun a b => timestamp a <= timestamp b) (mem_get m k) ->
   Forall (fun t => expired now t = false) kept).
Proof.
  intros k kept.
  assert (Hk : kept = evict_expired now (mem_get m k)).
  { unfold kept. simpl. rewrite mem_get_insert, String.eqb_refl. reflexivity. }
  rewrite Hk. split; [apply evict_expired_suffix|].
  split; [reflexivity|].
  split; [apply evict_expired_head | apply evict_expired_sorted].
Qed.

(* ------------------------------------------------------------------ *)
(** ** The conversation loop *)

(** The [tool_use] blocks of a response, as (id, name, input), in order. *)
Fixpoint tool_uses (bs : list block) : list (string * string * string) :=
  match bs with
  | [] => []
  | ToolUseBlock id name input :: rest => (id, name, input) :: tool_uses rest
  | _ :: rest => tool_uses rest
  end.

Definition tool_call_events (bs : list block) : list event :=
  map (fun '(_, name, input) => EvCallTool name input) (tool_uses bs).

Fixpoint count_queries (tr : list event) : nat :=
  match tr with
  | [] => 0
  | EvQuery _ :: rest => S (count_queries rest)
  | EvCallTool _ _ :: rest => count_queries rest
  end.

Lemma count_queries_app (t1 t2 : list event) :
  count_queries (t1 ++ t2) = (count_queries t1 + count_queries t2)%nat.
Proof. induction t1 as [|[] t1 IH]; simpl; lia. Qed.

Section LoopFacts.
Variable llm : list event -> claude_params -> llm_outcome.
Variable call_tool : list event -> string -> string -> tool_outcome.
Variable clock : nat -> Z.

Local Abbreviation conversation_loop := (conversation_loop llm call_tool clock).
Local Abbreviation run_tool_calls := (run_tool_calls call_tool).

(** Without a session, [tool_use] blocks are skipped. *)
Lemma run_tool_calls_no_session (bs : list block) made acc (w : world) :
  run_tool_calls false bs made acc w = (Ok (made, acc), w).
Proof.
  revert made acc. induction bs as [|[t|id n i|ty] bs IH]; intros made acc;
    simpl; try apply IH. reflexivity.
Qed.

(** With a session, every [tool_use] block is called once, in order, and
    gets one result carrying its id; a raising call becomes a result. *)
Lemma run_tool_calls_session (bs : list block) made acc (w : world) :
  exists rs,
    run_tool_calls true bs made acc w =
      (Ok (made || match tool_uses bs with [] => false | _ => true end, acc ++ rs),
       mk_world (w_memory w) (w_trace w ++ tool_call_events bs) (w_clk w)) /\
    Forall2 (fun '(id, name, input) r =>
               tool_use_id r = id /\
               exists tr, result_content r = render_tool_outcome (call_tool tr name input))
            (tool_uses bs) rs.
Proof.
  revert made acc w. unfold tool_call_events.
  induction bs as [|[t|id n i|ty] bs IH]; intros made acc w; simpl.
  - exists []. split; [|constructor].
    rewrite orb_false_r, !app_nil_r. destruct w. reflexivity.
  - apply IH.
  - unfold mbind, M_bind, call_tool_m. simpl.
    destruct (IH true (acc ++ [mk_tool_result id
                 (render_tool_outcome (call_tool (w_trace w) n i))])
                 (mk_world (w_memory w) (w_trace w ++ [EvCallTool n i]) (w_clk w)))
      as [rs [Heq Hf]].
    exists (mk_tool_result id (render_tool_outcome (call_tool (w_trace w) n i)) :: rs).
    split.
    + rewrite Heq. simpl. rewrite orb_true_r, <- app_assoc, <- app_assoc. reflexivity.
    + constructor; [split; [reflexivity | eexists; reflexivity] | exact Hf].
  - apply IH.
Qed.

(** One iteration of the loop, unfolded. *)
Lemma conversation_loop_step cfg ctx tools f it msgs (w : world) :
  (it < max_iterations)%nat ->
  conversation_loop cfg ctx tools (S f) it msgs w =
  let p := make_claude_params msgs tools in
  let w1 := mk_world (w_memory w) (w_trace w ++ [EvQuery p]) (w_clk w) in
  match llm (w_trace w) p with
  | LLMExc e => (Exc e, w1)
  | LLMOk bs =>
      let msgs1 := msgs ++ [mk_message "assistant" (MBlocks bs)] in
      match run_tool_calls (sentry_session cfg) bs false [] w1 with
      | (Ok (true, rs), w2) =>
          conversation_loop cfg ctx tools f (S it)
            (msgs1 ++ [mk_message "user" (MToolResults rs)]) w2
      | (Ok (false, _), w2) =>
          let ft := final_text bs in
          ((if String.eqb ft "" then mret tt
            else add_to_memory_m clock ctx "assistant" ft) ;;
           mret (if String.eqb ft "" then fallback_message else ft)) w2
      | (Exc e, w2) => (Exc e, w2)
      end
  end.
Proof.
  intros Hit. simpl. apply Nat.ltb_lt in Hit. rewrite Hit.
  unfold mbind at 1, M_bind at 1, query_llm.
  destruct (llm (w_trace w) (make_claude_params msgs tools)) as [bs|e]; [|reflexivity].
  unfold mbind at 1, M_bind at 1.
  destruct (run_tool_calls _ bs false [] _) as [[[[] rs]|e] w2]; reflexivity.
Qed.

(** The last iteration: a response none of whose blocks is executed as a
    tool call ends the loop after this one query. *)
Lemma conversation_loop_final cfg ctx tools f it msgs (w : world) bs :
  (it < max_iterations)%nat ->
  llm (w_trace w) (make_claude_params msgs tools) = LLMOk bs ->
  sentry_session cfg = false \/ tool_uses bs = [] ->
  let ft := final_text bs in
  conversation_loop cfg ctx tools (S f) it msgs w =
    (Ok (if String.eqb ft "" then fallback_message else ft),
     mk_world
       (if String.eqb ft "" then w_memory w
        else add_to_memory (w_memory w) ctx "assistant" ft (clock (w_clk w)))
       (w_trace w ++ [EvQuery (make_claude_params msgs tools)])
       (if String.eqb ft "" then w_clk w else S (w_clk w))).
Proof.
  intros Hit Hllm Hno ft. rewrite conversation_loop_step by exact Hit.
  cbv zeta. rewrite Hllm.
  assert (Hrt : forall w1, run_tool_calls (sentry_session cfg) bs false [] w1
                           = (Ok (false, []), w1)).
  { intros w1. destruct Hno as [Hs | Hu].
    - rewrite Hs. apply run_tool_calls_no_session.
    - destruct (sentry_session cfg).
      + destruct (run_tool_calls_session bs false [] w1) as [rs [Heq Hf]].
        rewrite Hu in Heq, Hf. inversion Hf; subst. rewrite Heq.
        unfold tool_call_events. rewrite Hu. destruct w1. simpl.
        rewrite app_nil_r. reflexivity.
      + apply run_tool_calls_no_session. }
  rewrite Hrt. fold ft.
  destruct (String.eqb ft "") eqn:Hft; reflexivity.
Qed.

End LoopFacts.

Section LoopRuns.
Variable llm : list event -> claude_params -> llm_outcome.
Variable call_tool : list event -> string -> string -> tool_outcome.
Variable clock : nat -> Z.

Local Abbreviation conversation_loop := (conversation_loop llm call_tool clock).
Local Abbreviation run_tool_calls := (run_tool_calls call_tool).

Lemma count_queries_tool_calls (bs : list block) :
  count_queries (tool_call_events bs) = 0%nat.
Proof.
  unfold tool_call_events. induction (tool_uses bs) as [|[[id n] i] us IH];
    simpl; [reflexivity | exact IH].
Qed.

Lemma final_answer_trace ctx (ft : string) (w : world) :
  w_trace (snd (((if String.eqb ft "" then mret tt
                  else add_to_memory_m clock ctx "assistant" ft) ;;
                 mret (if String.eqb ft "" then fallback_message else ft)) w))
  = w_trace w.
Proof. destruct (String.eqb ft ""); reflexivity. Qed.

(** The loop only adds to the trace, and makes at most [fuel] queries. *)
Lemma conversation_loop_trace cfg ctx tools (f : nat) :
  forall it msgs (w : world),
  exists rest,
    w_trace (snd (conversation_loop cfg ctx tools f it msgs w)) = w_trace w ++ rest /\
    (count_queries rest <= f)%nat.
Proof.
  induction f as [|f IH]; intros it msgs w.
  - exists []. rewrite app_nil_r. split; [reflexivity | simpl; lia].
  - destruct (Nat.ltb it max_iterations) eqn:Hit.
    2:{ exists []. simpl. rewrite Hit, app_nil_r. split; [reflexivity | simpl; lia]. }
    apply Nat.ltb_lt in Hit.
    rewrite conversation_loop_step by exact Hit. cbv zeta.
    destruct (llm (w_trace w) _) as [bs|e].
    2:{ eexists. split; [reflexivity | simpl; lia]. }
    destruct (sentry_session cfg).
    + destruct (run_tool_calls_session call_tool bs false []
                  (mk_world (w_memory w) (w_trace w ++ [EvQuery (make_claude_params msgs tools)])
                     (w_clk w))) as [rs [Heq _]].
      rewrite Heq. simpl orb.
      destruct (tool_uses bs).
      * rewrite final_answer_trace. simpl.
        exists ([EvQuery (make_claude_params msgs tools)] ++ tool_call_events bs).
        rewrite <- app_assoc. split; [reflexivity|].
        rewrite count_queries_app, count_queries_tool_calls. simpl. lia.
      * match goal with
        | |- context [conversation_loop cfg ctx tools f ?i ?ms ?w2] =>
            destruct (IH i ms w2) as [rest [Hr Hc]]
        end.
        rewrite Hr. simpl.
        exists ([EvQuery (make_claude_params msgs tools)] ++ tool_call_events bs ++ rest).
        rewrite !app_assoc. split; [reflexivity|].
        rewrite !count_queries_app, count_queries_tool_calls. simpl. lia.
    + rewrite run_tool_calls_no_session, final_answer_trace. simpl.
      eexists. split; [reflexivity | simpl; lia].
Qed.

(** A loop with iterations left starts with a query of the current
    message list. *)
Lemma conversation_loop_first_query cfg ctx tools f it msgs (w : world) :
  (it < max_iterations)%nat ->
  exists rest,
    w_trace (snd (conversation_loop cfg ctx tools (S f) it msgs w)) =
      w_trace w ++ EvQuery (make_claude_params msgs tools) :: rest.
Proof.
  intros Hit. rewrite conversation_loop_step by exact Hit. cbv zeta.
  destruct (llm (w_trace w) _) as [bs|e].
  2:{ exists []. reflexivity. }
  destruct (sentry_session cfg).
  - destruct (run_tool_calls_session call_tool bs false []
                (mk_world (w_memory w) (w_trace w ++ [EvQuery (make_claude_params msgs tools)])
                   (w_clk w))) as [rs [Heq _]].
    rewrite Heq. simpl orb.
    destruct (tool_uses bs).
    + rewrite final_answer_trace. simpl.
      exists (tool_call_events bs). rewrite <- app_assoc. reflexivity.
    + match goal with
      | |- context [conversation_loop cfg ctx tools f ?i ?ms ?w2] =>
          destruct (conversation_loop_trace cfg ctx tools f i ms w2) as [rest [Hr _]]
      end.
      rewrite Hr. simpl.
      exists (tool_call_events bs ++ rest). rewrite <- !app_assoc. reflexivity.
  - rewrite run_tool_calls_no_session, final_answer_trace. simpl.
    exists []. reflexivity.
Qed.

(** A fault of the loop is a failed query: it is the last event, and the
    memory is left as it was. *)
Lemma conversation_loop_exc cfg ctx tools (f : nat) :
  forall it msgs (w w' : world) e,
  conversation_loop cfg ctx tools f it msgs w = (Exc e, w') ->
  w_memory w' = w_memory w /\
  exists tr p, w_trace w' = tr ++ [EvQuery p] /\ llm tr p = LLMExc e.
Proof.
  induction f as [|f IH]; intros it msgs w w' e Hrun.
  - discriminate.
  - destruct (Nat.ltb it max_iterations) eqn:Hit.
    2:{ simpl in Hrun. rewrite Hit in Hrun. discriminate. }
    apply Nat.ltb_lt in Hit.
    rewrite conversation_loop_step in Hrun by exact Hit. cbv zeta in Hrun.
    destruct (llm (w_trace w) _) as [bs|e0] eqn:Hllm.
    2:{ injection Hrun as <- <-. split; [reflexivity|]. eauto. }
    destruct (sentry_session cfg).
    + destruct (run_tool_calls_session call_tool bs false []
                  (mk_world (w_memory w) (w_trace w ++ [EvQuery (make_claude_params msgs tools)])
                     (w_clk w))) as [rs [Heq _]].
      rewrite Heq in Hrun. simpl orb in Hrun.
      destruct (tool_uses bs).
      * destruct (String.eqb (final_text bs) ""); discriminate.
      * apply IH in Hrun. destruct Hrun as [Hm Hq]. split; [exact Hm | exact Hq].
    + rewrite run_tool_calls_no_session in Hrun.
      destruct (String.eqb (final_text bs) ""); discriminate.
Qed.

(** If every response asks for tools (with a session), the loop makes one
    query per remaining iteration and ends with the too-many-steps message,
    leaving the memory as it was. *)
Lemma conversation_loop_all_tool_rounds cfg ctx tools :
  sentry_session cfg = true ->
  (forall tr p, exists bs, llm tr p = LLMOk bs /\ tool_uses bs <> []) ->
  forall f it msgs (w : world),
  (it + f = max_iterations)%nat ->
  exists rest,
    conversation_loop cfg ctx tools f it msgs w =
      (Ok too_many_steps_message, mk_world (w_memory w) (w_trace w ++ rest) (w_clk w)) /\
    count_queries rest = f.
Proof.
  intros Hs Hall f. induction f as [|f IH]; intros it msgs w Hf.
  - exists []. rewrite app_nil_r. destruct w. split; reflexivity.
  - rewrite conversation_loop_step by lia. cbv zeta.
    destruct (Hall (w_trace w) (make_claude_params msgs tools)) as [bs [Hllm Hu]].
    rewrite Hllm, Hs.
    destruct (run_tool_calls_session call_tool bs false []
                (mk_world (w_memory w) (w_trace w ++ [EvQuery (make_claude_params msgs tools)])
                   (w_clk w))) as [rs [Heq _]].
    rewrite Heq. simpl orb.
    destruct (tool_uses bs) eqn:Hub; [congruence|].
    match goal with
    | |- context [conversation_loop cfg ctx tools f ?i ?ms ?w2] =>
        destruct (IH i ms w2 ltac:(lia)) as [rest [Hr Hc]]
    end.
    rewrite Hr. simpl.
    exists ([EvQuery (make_claude_params msgs tools)] ++ tool_call_events bs ++ rest).
    rewrite !app_assoc. split; [reflexivity|].
    rewrite !count_queries_app, count_queries_tool_calls. simpl. lia.
Qed.

End LoopRuns.

Section AskRuns.
Variable llm : list event -> claude_params -> llm_outcome.
Variable call_tool : list event -> string -> string -> tool_outcome.
Variable clock : nat -> Z.

Local Abbreviation run_loop := (conversation_loop llm call_tool clock).
Local Abbreviation ask_body := (ask_body llm call_tool clock).
Local Abbreviation ask_claude_with_memory := (ask_claude_with_memory llm call_tool clock).

(** The memory once [ask_claude_with_memory] has read the history (first
    clock read) and stored the user turn (second clock read). *)
Definition memory_with_user_turn (w : world) (ctx : context) (um : string)
    : memory_store :=
  add_to_memory (fst (get_conversation_history (w_memory w) ctx (clock (w_clk w))))
    ctx "user" um (clock (S (w_clk w))).

Definition initial_messages (w : world) (ctx : context) (um : string)
    : list message :=
  snd (get_conversation_history (w_memory w) ctx (clock (w_clk w)))
    ++ [mk_message "user" (MText um)].

Lemma ask_body_unfold cfg ctx um (w : world) :
  ask_body cfg ctx um w =
    run_loop cfg ctx (offered_tools cfg) max_iterations 0
      (initial_messages w ctx um)
      (mk_world (memory_with_user_turn w ctx um) (w_trace w) (S (S (w_clk w)))).
Proof.
  unfold ask_body, memory_with_user_turn, initial_messages,
    get_conversation_history_m, add_to_memory_m.
  unfold mbind, M_bind, mret, M_ret, now_m, get_memory, modify_memory.
  cbn -[get_conversation_history add_to_memory conversation_loop].
  destruct (get_conversation_history (w_memory w) ctx (clock (w_clk w))) as [m1 h].
  reflexivity.
Qed.

Lemma ask_world cfg ctx um (w : world) :
  snd (ask_claude_with_memory cfg ctx um w) = snd (ask_body cfg ctx um w).
Proof.
  unfold ask_claude_with_memory, catch.
  destruct (ask_body cfg ctx um w) as [[a|e] w']; reflexivity.
Qed.

End AskRuns.

Lemma conversation_loop_max_iterations llm call_tool clock cfg ctx tools it msgs :
  conversation_loop llm call_tool clock cfg ctx tools max_iterations it msgs =
  conversation_loop llm call_tool clock cfg ctx tools (S 9) it msgs.
Proof. reflexivity. Qed.

(* ------------------------------------------------------------------ *)
(** ** Claims about the conversation loop *)

(** Claim C1 (as the code does it).  When the MCP session is set and a
    response holds k >= 1 [tool_use] blocks, the iteration calls the k tools
    one after the other in the order of the blocks (the trace after the
    query is exactly these k calls), gets one result per block carrying the
    block's id (a raising call gives an ["Error: ..."] result, nothing
    propagates), appends the assistant reply and one user turn with all k
    results, and continues with the next iteration; if an iteration is left,
    its first act is the next query, over the messages that end with the
    results.  Without a session the same response executes no tool at all:
    the query is the only event the whole run adds to the trace. *)
Theorem tool_calls_run_in_order
    (llm : list event -> claude_params -> llm_outcome)
    (call_tool : list event -> string -> string -> tool_outcome)
    (clock : nat -> Z) cfg ctx tools f it msgs (w : world) bs :
  (it < max_iterations)%nat ->
  llm (w_trace w) (make_claude_params msgs tools) = LLMOk bs ->
  tool_uses bs <> [] ->
  (sentry_session cfg = true ->
  exists rs,
    Forall2 (fun '(id, name, input) r =>
               tool_use_id r = id /\
               exists tr, result_content r = render_tool_outcome (call_tool tr name input))
            (tool_uses bs) rs /\
    (let msgs' := msgs ++ [mk_message "assistant" (MBlocks bs);
                           mk_message "user" (MToolResults rs)] in
     let w' := mk_world (w_memory w)
                 (w_trace w ++ EvQuery (make_claude_params msgs tools)
                            :: tool_call_events bs) (w_clk w) in
     conversation_loop llm call_tool clock cfg ctx tools (S f) it msgs w
       = conversation_loop llm call_tool clock cfg ctx tools f (S it) msgs' w' /\
     (forall f', f = S f' -> (S it < max_iterations)%nat ->
        exists rest,
          w_trace (snd (conversation_loop llm call_tool clock cfg ctx tools f (S it) msgs' w'))
            = w_trace w' ++ EvQuery (make_claude_params msgs' tools) :: rest))) /\
  (sentry_session cfg = false ->
   w_trace (snd (conversation_loop llm call_tool clock cfg ctx tools (S f) it msgs w))
   = w_trace w ++ [EvQuery (make_claude_params msgs tools)]).
Proof.
  intros Hit Hllm Hu. split.
  2:{ intros Hs. rewrite (conversation_loop_final llm call_tool clock cfg ctx tools f it
                            msgs w bs Hit Hllm (or_introl Hs)).
      reflexivity. }
  intros Hs.
  destruct (run_tool_calls_session call_tool bs false []
              (mk_world (w_memory w) (w_trace w ++ [EvQuery (make_claude_params msgs tools)])
                 (w_clk w))) as [rs [Heq Hf]].
  exists rs. split; [exact Hf|].
  cbv zeta. split.
  - rewrite conversation_loop_step by exact Hit. cbv zeta.
    rewrite Hllm, Hs, Heq. simpl orb.
    destruct (tool_uses bs) eqn:Hub; [congruence|].
    simpl. rewrite <- !app_assoc. reflexivity.
  - intros f' -> Hit'. apply conversation_loop_first_query. exact Hit'.
Qed.

(** Claim C2.  When a response has no [tool_use] block, the loop ends after
    this one query (the only event added to the trace): it returns the
    concatenation of the text blocks, stored as an assistant turn when it is
    non-empty, or the fixed fallback string, storing nothing, when it is
    empty. *)
Theorem text_only_response_ends_loop
    (llm : list event -> claude_params -> llm_outcome)
    (call_tool : list event -> string -> string -> tool_outcome)
    (clock : nat -> Z) cfg ctx tools f it msgs (w : world) bs :
  (it < max_iterations)%nat ->
  llm (w_trace w) (make_claude_params msgs tools) = LLMOk bs ->
  tool_uses bs = [] ->
  let ft := final_text bs in
  conversation_loop llm call_tool clock cfg ctx tools (S f) it msgs w =
    (Ok (if String.eqb ft "" then fallback_message else ft),
     mk_world
       (if String.eqb ft "" then w_memory w
        else add_to_memory (w_memory w) ctx "assistant" ft (clock (w_clk w)))
       (w_trace w ++ [EvQuery (make_claude_params msgs tools)])
       (if String.eqb ft "" then w_clk w else S (w_clk w))).
Proof.
  intros Hit Hllm Hu. apply conversation_loop_final; [exact Hit | exact Hllm | right; exact Hu].
Qed.

(** Claim C10 (as the code does it).  Without an MCP session, the
    [tool_use] blocks of a response are skipped: no tool is called (the
    query is the only event), the response ends the loop in this iteration,
    and the loop returns the concatenation of its text blocks, or the fixed
    fallback string when that concatenation is empty. *)
Theorem no_session_response_is_final
    (llm : list event -> claude_params -> llm_outcome)
    (call_tool : list event -> string -> string -> tool_outcome)
    (clock : nat -> Z) cfg ctx tools f it msgs (w : world) bs :
  sentry_session cfg = false ->
  (it < max_iterations)%nat ->
  llm (w_trace w) (make_claude_params msgs tools) = LLMOk bs ->
  let ft := final_text bs in
  conversation_loop llm call_tool clock cfg ctx tools (S f) it msgs w =
    (Ok (if String.eqb ft "" then fallback_message else ft),
     mk_world
       (if String.eqb ft "" then w_memory w
        else add_to_memory (w_memory w) ctx "assistant" ft (clock (w_clk w)))
       (w_trace w ++ [EvQuery (make_claude_params msgs tools)])
       (if String.eqb ft "" then w_clk w else S (w_clk w))).
Proof.
  intros Hs Hit Hllm. apply conversation_loop_final; [exact Hit | exact Hllm | left; exact Hs].
Qed.

(** Claim C3.  A run of [ask_claude_with_memory] makes at most 10 queries
    (the iteration counter goes 0, 1, ..., 10 and the loop stops there).
    When the session is set and every response asks for tools, it makes
    exactly 10 queries and returns the too-many-steps message, and the
    memory then holds what it held after the user turn was stored: the
    message is not stored. *)
Theorem ask_stops_after_ten_queries
    (llm : list event -> claude_params -> llm_outcome)
    (call_tool : list event -> string -> string -> tool_outcome)
    (clock : nat -> Z) cfg ctx um (w : world) :
  (exists rest,
     w_trace (snd (ask_claude_with_memory llm call_tool clock cfg ctx um w))
       = w_trace w ++ rest /\
     (count_queries rest <= max_iterations)%nat) /\
  (sentry_session cfg = true ->
   (forall tr p, exists bs, llm tr p = LLMOk bs /\ tool_uses bs <> []) ->
   exists rest,
     ask_claude_with_memory llm call_tool clock cfg ctx um w =
       (Ok too_many_steps_message,
        mk_world (memory_with_user_turn clock w ctx um) (w_trace w ++ rest)
          (S (S (w_clk w)))) /\
     count_queries rest = max_iterations).
Proof.
  split.
  - rewrite ask_world, ask_body_unfold.
    destruct (conversation_loop_trace llm call_tool clock cfg ctx (offered_tools cfg)
                max_iterations 0 (initial_messages clock w ctx um)
                (mk_world (memory_with_user_turn clock w ctx um) (w_trace w)
                   (S (S (w_clk w))))) as [rest [Hr Hc]].
    exists rest. split; [exact Hr | exact Hc].
  - intros Hs Hall.
    destruct (conversation_loop_all_tool_rounds llm call_tool clock cfg ctx
                (offered_tools cfg) Hs Hall max_iterations 0
                (initial_messages clock w ctx um)
                (mk_world (memory_with_user_turn clock w ctx um) (w_trace w)
                   (S (S (w_clk w)))) eq_refl) as [rest [Hr Hc]].
    exists rest. split; [|exact Hc].
    unfold ask_claude_with_memory, catch. rewrite ask_body_unfold, Hr. reflexivity.
Qed.

(** Claim C6.  When the body of [ask_claude_with_memory] raises, the fault
    is a failed query and it is the last thing the run did (no retry); the
    caller gets the single string "Sorry, I encountered an error: " followed
    by the exception text; the memory holds the user turn stored at the
    start of the run and no assistant turn. *)
Theorem llm_fault_reported_once
    (llm : list event -> claude_params -> llm_outcome)
    (call_tool : list event -> string -> string -> tool_outcome)
    (clock : nat -> Z) cfg ctx um (w w' : world) (e : string) :
  ask_body llm call_tool clock cfg ctx um w = (Exc e, w') ->
  ask_claude_with_memory llm call_tool clock cfg ctx um w
    = (Ok (error_prefix ++ e)%string, w') /\
  w_memory w' = memory_with_user_turn clock w ctx um /\
  exists tr p, w_trace w' = tr ++ [EvQuery p] /\ llm tr p = LLMExc e.
Proof.
  intros Hbody. split.
  - unfold ask_claude_with_memory, catch. rewrite Hbody. reflexivity.
  - rewrite ask_body_unfold in Hbody.
    apply conversation_loop_exc in Hbody. exact Hbody.
Qed.

(** Claim C8 (as the code does it).  After a failed MCP handshake the bot
    has no session; [status] answers that it is not connected; and
    [ask_claude_with_memory] still answers (it never raises) after one
    query to Claude whose parameters have no ["tools"] key. *)
Theorem degraded_mode_after_failed_handshake
    (llm : list event -> claude_params -> llm_outcome)
    (call_tool : list event -> string -> string -> tool_outcome)
    (clock : nat -> Z) (err : string) ctx um (w : world) :
  let cfg := connect_to_sentry initial_config (HandshakeFail err) in
  sentry_session cfg = false /\
  status cfg = "‚ùå Not connected to Sentry" /\
  exists s p,
    fst (ask_claude_with_memory llm call_tool clock cfg ctx um w) = Ok s /\
    w_trace (snd (ask_claude_with_memory llm call_tool clock cfg ctx um w))
      = w_trace w ++ [EvQuery p] /\
    cp_tools p = None.
Proof.
  intros cfg. split; [reflexivity|]. split; [reflexivity|].
  assert (Ht : offered_tools cfg = []) by reflexivity.
  unfold ask_claude_with_memory, catch.
  rewrite ask_body_unfold, Ht, conversation_loop_max_iterations.
  rewrite conversation_loop_step by (unfold max_iterations; lia). cbv zeta.
  destruct (llm _ _) as [bs|e].
  - rewrite run_tool_calls_no_session.
    destruct (String.eqb (final_text bs) "");
      (eexists; eexists; split; [reflexivity | split; [reflexivity | reflexivity]]).
  - eexists; eexists; split; [reflexivity | split; [reflexivity | reflexivity]].
Qed.

(* ------------------------------------------------------------------ *)
(** ** Claim about [on_message] *)

(** A direct message: Discord delivers it with [message.guild = None]. *)
Definition direct_message_example : discord_message :=
  mk_discord_message false "4242" "77" None "what is issue PROJ-123" false true.

(** Claim C9 (the code's behaviour on a direct message).  The guild filter
    reads [message.guild.id] before the mention/DM branch, so a direct
    message raises [AttributeError] there: no command is processed, Claude
    is not asked, nothing is replied, and the state is unchanged. *)
Theorem direct_message_raises_in_guild_filter
    (llm : list event -> claude_params -> llm_outcome)
    (call_tool : list event -> string -> string -> tool_outcome)
    (clock : nat -> Z) cfg (bot_id server_id : Z) (w : world) :
  on_message llm call_tool clock cfg bot_id server_id direct_message_example w
    = (Exc "'NoneType' object has no attribute 'id'", w).
Proof. reflexivity. Qed.

(* ------------------------------------------------------------------ *)
(** ** Concrete runs *)

Definition demo_ctx : context := mk_context "4242" "77".
Definition demo_tool : tool_desc := mk_tool_desc "get_issue" "Get a Sentry issue" "{}".
Definition demo_cfg : bot_config := mk_bot_config true [demo_tool].
Definition demo_world : world := mk_world ∅ [] 0.
Definition demo_clock (n : nat) : Z := Z.of_nat n.
Definition demo_question : list message :=
  [mk_message "user" (MText "what is issue PROJ-123")].

Definition demo_call_tool (tr : list event) (name input : string) : tool_outcome :=
  if String.eqb name "get_issue" then ToolOk ["Issue resolved"]
  else ToolExc "unknown tool".

Definition demo_tool_use : list block :=
  [ToolUseBlock "toolu_1" "get_issue" "id=PROJ-123"].
Definition demo_answer : list block :=
  [TextBlock "The issue is already resolved."].

(** First a tool call, then a text answer. *)
Definition demo_llm (tr : list event) (p : claude_params) : llm_outcome :=
  match count_queries tr with
  | O => LLMOk demo_tool_use
  | S _ => LLMOk demo_answer
  end.

(** A guild message that mentions the bot is answered: the path the direct
    message never reaches. *)
Lemma guild_mention_is_answered :
  fst (on_message demo_llm demo_call_tool demo_clock demo_cfg 1 5
         (mk_discord_message false "4242" "77" (Some 5)
            "<@1> what is issue PROJ-123" true false) demo_world)
  = Ok [ProcessCommands; Reply "The issue is already resolved."].
Proof. vm_compute. reflexivity. Qed.

(** A response with two [tool_use] blocks around a text block; the second
    tool is unknown to the server and raises. *)
Definition demo_two_tools : list block :=
  [ToolUseBlock "toolu_1" "get_issue" "id=PROJ-123"; TextBlock "Looking up both.";
   ToolUseBlock "toolu_2" "list_projects" "{}"].

Definition demo_two_tools_llm (tr : list event) (p : claude_params) : llm_outcome :=
  match count_queries tr with
  | O => LLMOk demo_two_tools
  | S _ => LLMOk demo_answer
  end.

Lemma tool_calls_run_in_order_witness :
  (exists rs,
     map tool_use_id rs = ["toolu_1"; "toolu_2"] /\
     map result_content rs = ["Issue resolved"; "Error: unknown tool"] /\
     conversation_loop demo_two_tools_llm demo_call_tool demo_clock demo_cfg demo_ctx
       [demo_tool] 10 0 demo_question demo_world
     = conversation_loop demo_two_tools_llm demo_call_tool demo_clock demo_cfg demo_ctx
         [demo_tool] 9 1
         (demo_question ++ [mk_message "assistant" (MBlocks demo_two_tools);
                            mk_message "user" (MToolResults rs)])
         (mk_world ∅ [EvQuery (make_claude_params demo_question [demo_tool]);
                      EvCallTool "get_issue" "id=PROJ-123";
                      EvCallTool "list_projects" "{}"] 0)) /\
  w_trace (snd (conversation_loop demo_two_tools_llm demo_call_tool demo_clock
                  initial_config demo_ctx [] 10 0 demo_question demo_world))
  = [EvQuery (make_claude_params demo_question [])].
Proof.
  destruct (tool_calls_run_in_order demo_two_tools_llm demo_call_tool demo_clock demo_cfg
              demo_ctx [demo_tool] 9 0 demo_question demo_world demo_two_tools)
    as [Hsess _]; [unfold max_iterations; lia | reflexivity | discriminate |].
  destruct (tool_calls_run_in_order demo_two_tools_llm demo_call_tool demo_clock
              initial_config demo_ctx [] 9 0 demo_question demo_world demo_two_tools)
    as [_ Hno]; [unfold max_iterations; lia | reflexivity | discriminate |].
  split; [|exact (Hno eq_refl)].
  destruct (Hsess eq_refl) as [rs [Hf [Heq _]]].
  cbn in Hf. inversion Hf as [|a r1 l1 rs1 H1 Hrest]; subst.
  inversion Hrest as [|b r2 l2 rs2 H2 Hnil]; subst.
  inversion Hnil; subst.
  destruct H1 as [Hid1 [tr1 Hc1]], H2 as [Hid2 [tr2 Hc2]].
  exists [r1; r2]. split; [simpl; rewrite Hid1, Hid2; reflexivity|].
  split; [simpl; rewrite Hc1, Hc2; reflexivity | exact Heq].
Defined.

(** Claim C1, counterexample: without a session a response with one
    [tool_use] block calls no tool (the query is the only event). *)
Lemma no_session_tool_use_is_not_called :
  let r := conversation_loop (fun _ _ => LLMOk demo_tool_use) demo_call_tool
             demo_clock initial_config demo_ctx [] max_iterations 0 demo_question
             demo_world in
  length (tool_uses demo_tool_use) = 1%nat /\
  w_trace (snd r) = [EvQuery (make_claude_params demo_question [])] /\
  fst r = Ok fallback_message.
Proof. vm_compute. repeat split; reflexivity. Qed.

Lemma text_only_response_ends_loop_witness :
  conversation_loop demo_llm demo_call_tool demo_clock demo_cfg demo_ctx
    [demo_tool] 10 1
    [mk_message "user" (MText "hi")]
    (mk_world ∅ [EvQuery (make_claude_params [] [])] 0)
  = (Ok "The issue is already resolved.",
     mk_world (add_to_memory ∅ demo_ctx "assistant" "The issue is already resolved." 0)
       [EvQuery (make_claude_params [] []);
        EvQuery (make_claude_params [mk_message "user" (MText "hi")] [demo_tool])] 1).
Proof.
  apply (text_only_response_ends_loop demo_llm demo_call_tool demo_clock demo_cfg
           demo_ctx [demo_tool] 9 1 [mk_message "user" (MText "hi")]
           (mk_world ∅ [EvQuery (make_claude_params [] [])] 0) demo_answer).
  - unfold max_iterations. lia.
  - reflexivity.
  - reflexivity.
Defined.

Definition tool_and_empty_text : list block :=
  [ToolUseBlock "toolu_1" "get_issue" "id=PROJ-123"; TextBlock ""].

(** Claim C10, counterexample: without a session, a response made of a
    [tool_use] block and an empty text block has a text segment, whose
    concatenation is empty, and the loop returns the fallback string, not
    that (empty) concatenation. *)
Lemma no_session_empty_text_gives_fallback :
  In (TextBlock "") tool_and_empty_text /\
  final_text tool_and_empty_text = "" /\
  fst (conversation_loop (fun _ _ => LLMOk tool_and_empty_text) demo_call_tool
         demo_clock initial_config demo_ctx [] max_iterations 0 demo_question
         demo_world) = Ok fallback_message /\
  fallback_message <> "".
Proof.
  split; [simpl; tauto|]. split; [reflexivity|]. split; [vm_compute; reflexivity|].
  discriminate.
Qed.

Lemma no_session_response_is_final_witness :
  conversation_loop (fun _ _ => LLMOk (demo_tool_use ++ demo_answer)) demo_call_tool
    demo_clock initial_config demo_ctx [] 10 0 demo_question demo_world
  = (Ok "The issue is already resolved.",
     mk_world (add_to_memory ∅ demo_ctx "assistant" "The issue is already resolved." 0)
       [EvQuery (make_claude_params demo_question [])] 1).
Proof.
  apply (no_session_response_is_final (fun _ _ => LLMOk (demo_tool_use ++ demo_answer))
           demo_call_tool demo_clock initial_config demo_ctx [] 9 0 demo_question
           demo_world (demo_tool_use ++ demo_answer)).
  - reflexivity.
  - unfold max_iterations. lia.
  - reflexivity.
Defined.

Definition always_tool_llm (tr : list event) (p : claude_params) : llm_outcome :=
  LLMOk demo_tool_use.

Lemma ask_stops_after_ten_queries_witness :
  exists rest,
    ask_claude_with_memory always_tool_llm demo_call_tool demo_clock demo_cfg
      demo_ctx "what is issue PROJ-123" demo_world =
      (Ok too_many_steps_message,
       mk_world (memory_with_user_turn demo_clock demo_world demo_ctx
                   "what is issue PROJ-123") ([] ++ rest) 2) /\
    count_queries rest = max_iterations.
Proof.
  apply (proj2 (ask_stops_after_ten_queries always_tool_llm demo_call_tool demo_clock
                  demo_cfg demo_ctx "what is issue PROJ-123" demo_world)).
  - reflexivity.
  - intros tr p. exists demo_tool_use. split; [reflexivity | discriminate].
Defined.

Definition failing_llm (tr : list event) (p : claude_params) : llm_outcome :=
  LLMExc "Error code: 529 - overloaded".

Lemma llm_fault_reported_once_witness :
  let w' := snd (ask_body failing_llm demo_call_tool demo_clock demo_cfg demo_ctx
                   "what is issue PROJ-123" demo_world) in
  ask_claude_with_memory failing_llm demo_call_tool demo_clock demo_cfg demo_ctx
    "what is issue PROJ-123" demo_world
  = (Ok (error_prefix ++ "Error code: 529 - overloaded")%string, w') /\
  w_memory w' = memory_with_user_turn demo_clock demo_world demo_ctx
                  "what is issue PROJ-123" /\
  exists tr p, w_trace w' = tr ++ [EvQuery p] /\
               failing_llm tr p = LLMExc "Error code: 529 - overloaded".
Proof.
  apply (llm_fault_reported_once failing_llm demo_call_tool demo_clock demo_cfg
           demo_ctx "what is issue PROJ-123" demo_world).
  vm_compute. reflexivity.
Defined.

(** Claim C8, counterexample: after the failed handshake, [status] does not
    report a tool count of zero; it reports that the bot is not connected. *)
Lemma failed_handshake_status_has_no_tool_count :
  status (connect_to_sentry initial_config (HandshakeFail "spawn npx ENOENT"))
  <> ("‚úÖ Connected to Sentry with " ++ pretty 0%nat ++ " tools available")%string.
Proof. vm_compute. intros H. discriminate H. Qed.

(** Two turns stored by a clock going forward, read when only the first
    has expired. *)
Definition forward_clock_memory : memory_store :=
  add_to_memory (add_to_memory ∅ demo_ctx "user" "a" 0) demo_ctx "assistant" "b" 1.

Lemma read_evicts_expired_prefix_witness :
  Forall (fun t => expired (memory_timeout + 1) t = false)
    (mem_get (fst (get_conversation_history forward_clock_memory demo_ctx
                     (memory_timeout + 1)))
             (get_memory_key demo_ctx)).
Proof.
  apply (proj2 (proj2 (proj2
           (read_evicts_expired_prefix forward_clock_memory demo_ctx
              (memory_timeout + 1))))).
  vm_compute.
  repeat constructor; intros H; discriminate H.
Defined.

Lemma dispatch_chunks_in_order_witness :
  map length (dispatch (repeat 0%nat 4500)) = [2000; 2000; 500]%nat.
Proof.
  apply (proj2 (proj2 (proj2 (dispatch_chunks_in_order (repeat 0%nat 4500))))).
  apply repeat_length.
Defined.

(* ================================================================== *)
(** * Further properties of the memory commands *)

(** [memory_status]: [len(ctx.bot.conversation_memory[memory_key])]. *)
Definition memory_count (m : memory_store) (ctx : context) : nat :=
  length (mem_get m (get_memory_key ctx)).

(** The reply of the [memory] command. *)
Definition memory_status (m : memory_store) (ctx : context) : string :=
  ("üí≠ I remember " ++ pretty (memory_count m ctx)
     ++ " messages from our conversation")%string.

(** Discord ids are integers: [str(id)] is a string of decimal digits. *)
Fixpoint all_digits (s : string) : bool :=
  match s with
  | EmptyString => true
  | String c rest =>
      Nat.leb 48 (Ascii.nat_of_ascii c) && Nat.leb (Ascii.nat_of_ascii c) 57
      && all_digits rest
  end.

Definition op_context (op : mem_op) : context :=
  match op with
  | OpAdd ctx _ _ _ => ctx
  | OpRead ctx _ => ctx
  | OpForget ctx => ctx
  end.

Lemma digits_before_underscore (a a' x y : string) :
  all_digits a = true -> all_digits a' = true ->
  (a ++ String "_"%char x = a' ++ String "_"%char y)%string -> a = a' /\ x = y.
Proof.
  revert a'. induction a as [|c a IH]; intros [|c' a'] Ha Ha' H; simpl in *.
  - injection H as ->. split; reflexivity.
  - injection H as Hc _. subst c'.
    vm_compute in Ha'. discriminate Ha'.
  - injection H as Hc _. subst c.
    vm_compute in Ha. discriminate Ha.
  - injection H as -> H.
    apply andb_prop in Ha as [_ Ha]. apply andb_prop in Ha' as [_ Ha'].
    destruct (IH a' Ha Ha' H) as [-> ->]. split; reflexivity.
Qed.

(** [get_memory_key] tells contexts apart: two (user, channel) pairs with
    decimal ids have the same key only if they are the same pair. *)
Lemma get_memory_key_inj (ctx ctx' : context) :
  all_digits (author_id ctx) = true -> all_digits (author_id ctx') = true ->
  get_memory_key ctx = get_memory_key ctx' -> ctx = ctx'.
Proof.
  destruct ctx as [a c], ctx' as [a' c']. unfold get_memory_key. simpl.
  intros Ha Ha' H. injection H as H.
  destruct (digits_before_underscore a a' _ _ Ha Ha' H) as [-> Hc].
  injection Hc as ->. reflexivity.
Qed.

(** Every memory operation changes only the deque of its own key. *)
Lemma run_mem_op_other_key (m : memory_store) (op : mem_op) (k : string) :
  get_memory_key (op_context op) <> k ->
  mem_get (run_mem_op m op) k = mem_get m k.
Proof.
  intros Hne. destruct op as [ctx r c now | ctx now | ctx]; simpl in *;
    unfold add_to_memory, forget; rewrite mem_get_insert;
    destruct (String.eqb_spec (get_memory_key ctx) k); congruence.
Qed.

(** The memory of one (user, channel) pair is isolated: adding, reading or
    forgetting in any other pair (decimal ids) leaves its stored turns
    unchanged. *)
Theorem memory_isolated_between_contexts (m : memory_store) (ops : list mem_op)
    (ctx : context) :
  all_digits (author_id ctx) = true ->
  Forall (fun op => all_digits (author_id (op_context op)) = true /\
                    op_context op <> ctx) ops ->
  mem_get (run_mem_ops m ops) (get_memory_key ctx) = mem_get m (get_memory_key ctx).
Proof.
  intros Hctx Hops. unfold run_mem_ops. revert m.
  induction Hops as [|op ops [Hd Hne] _ IH]; intros m; simpl; [reflexivity|].
  rewrite IH. apply run_mem_op_other_key.
  intros Hk. apply Hne. apply get_memory_key_inj; assumption.
Qed.

(** [forget] empties the caller's memory whatever it held: the count is 0
    and a read at any time returns no message; later appends start afresh
    and are kept up to the last 10. *)
Theorem forget_then_fresh_memory (m : memory_store) (ctx : context)
    (ops : list (context * string * string * Z)) (now : Z) :
  memory_count (forget m ctx) ctx = 0%nat /\
  snd (get_conversation_history (forget m ctx) ctx now) = [] /\
  mem_get (run_appends (forget m ctx) ops) (get_memory_key ctx)
    = lastn memory_maxlen (appended_turns (get_memory_key ctx) ops).
Proof.
  assert (Hf : mem_get (forget m ctx) (get_memory_key ctx) = []).
  { unfold forget. rewrite mem_get_insert, String.eqb_refl. reflexivity. }
  split; [unfold memory_count; rewrite Hf; reflexivity|].
  split; [simpl; rewrite Hf; reflexivity|].
  apply (run_appends_lastn _ ops _ []). rewrite Hf. reflexivity.
Qed.

(** The [memory] command counts without evicting: over any sequence of
    memory operations its number is at most 10, and it is at least the
    number of messages the next read returns (expired turns are counted
    until a read drops them). *)
Theorem memory_status_count_bounds (ops : list mem_op) (ctx : context) (now : Z) :
  let m := run_mem_ops ∅ ops in
  memory_status m ctx
    = ("üí≠ I remember " ++ pretty (memory_count m ctx)
         ++ " messages from our conversation")%string /\
  (memory_count m ctx <= memory_maxlen)%nat /\
  (length (snd (get_conversation_history m ctx now)) <= memory_count m ctx)%nat.
Proof.
  intros m. split; [reflexivity|]. split.
  - apply run_mem_ops_bounded. intros k. rewrite mem_get_empty. simpl.
    unfold memory_maxlen. lia.
  - simpl. rewrite length_map. apply evict_expired_length.
Qed.

Lemma evict_expired_later (now now' : Z) (d : list turn) :
  now <= now' -> evict_expired now' (evict_expired now d) = evict_expired now' d.
Proof.
  intros Hle. induction d as [|t r IH]; simpl; [reflexivity|].
  destruct (expired now t) eqn:He; [|reflexivity].
  rewrite IH. unfold expired in *. apply Z.ltb_lt in He.
  replace (Z.ltb memory_timeout (now' - timestamp t)) with true
    by (symmetry; apply Z.ltb_lt; lia).
  reflexivity.
Qed.

(** Reads compose: a read at [now] followed by a read at a later [now']
    leaves the same memory and returns the same messages as the read at
    [now'] alone; in particular a second read at the same time changes
    nothing. *)
Theorem reads_compose (m : memory_store) (ctx : context) (now now' : Z) :
  now <= now' ->
  get_conversation_history (fst (get_conversation_history m ctx now)) ctx now'
  = get_conversation_history m ctx now'.
Proof.
  intros Hle. unfold get_conversation_history. simpl.
  rewrite mem_get_insert, String.eqb_refl, evict_expired_later by exact Hle.
  rewrite insert_insert_eq. reflexivity.
Qed.

Lemma deque_append_last {A} (n : nat) (d : list A) (x : A) :
  (0 < n)%nat -> exists d', deque_append n d x = d' ++ [x].
Proof.
  intros Hn. unfold deque_append.
  destruct (Nat.ltb n (length (d ++ [x]))) eqn:Hlt.
  - apply Nat.ltb_lt in Hlt. rewrite length_app in Hlt. simpl in Hlt.
    destruct d as [|y d]; [simpl in Hlt; lia|].
    exists d. reflexivity.
  - exists d. reflexivity.
Qed.

Lemma evict_expired_keeps_last (now : Z) (l : list turn) (x : turn) :
  expired now x = false -> exists l', evict_expired now (l ++ [x]) = l' ++ [x].
Proof.
  intros Hx. induction l as [|t r IH]; simpl.
  - rewrite Hx. exists []. reflexivity.
  - destruct (expired now t); [exact IH|]. exists (t :: r). reflexivity.
Qed.

(** A turn just stored survives a read made within the two-hour window of
    its timestamp: the read returns it as its last message, whatever the
    deque held before. *)
Theorem added_turn_is_read_back (m : memory_store) (ctx : context)
    (r c : string) (t now : Z) :
  now - t <= memory_timeout ->
  exists older,
    snd (get_conversation_history (add_to_memory m ctx r c t) ctx now)
    = older ++ [mk_message r (MText c)].
Proof.
  intros Hwin. simpl. unfold add_to_memory.
  rewrite mem_get_insert, String.eqb_refl.
  destruct (deque_append_last memory_maxlen (mem_get m (get_memory_key ctx))
              (mk_turn r c t) ltac:(unfold memory_maxlen; lia)) as [d' ->].
  destruct (evict_expired_keeps_last now d' (mk_turn r c t)) as [l' ->].
  - unfold expired. simpl. apply Z.ltb_ge. lia.
  - exists (map turn_to_message l'). rewrite map_app. reflexivity.
Qed.

(* ------------------------------------------------------------------ *)
(** * Further properties of [ask_claude_with_memory] *)

(** What a query of a run is sent: the run's tools snapshot, the system
    prompt, and a message list that extends [msgs]. *)
Definition query_extends (tools : list tool_desc) (msgs : list message) (ev : event)
    : Prop :=
  match ev with
  | EvQuery p =>
      cp_tools p = cp_tools (make_claude_params [] tools) /\
      cp_system p = system_prompt /\
      exists sfx, cp_messages p = msgs ++ sfx
  | EvCallTool _ _ => True
  end.

Lemma query_extends_tool_calls tools msgs (bs : list block) :
  Forall (query_extends tools msgs) (tool_call_events bs).
Proof.
  unfold tool_call_events. induction (tool_uses bs) as [|[[id n] i] us IH];
    simpl; constructor; [exact I | exact IH].
Qed.

Lemma query_extends_longer tools msgs extra (tr : list event) :
  Forall (query_extends tools (msgs ++ extra)) tr ->
  Forall (query_extends tools msgs) tr.
Proof.
  intros Hall. eapply Forall_impl; [exact Hall|]. intros [p|n i]; simpl; [|tauto].
  intros [Ht [Hs [sfx Hm]]]. split; [exact Ht|]. split; [exact Hs|].
  exists (extra ++ sfx). rewrite Hm, app_assoc. reflexivity.
Qed.

(** The run ended on a final response: its last event is a query whose
    response executes no tool and whose text blocks concatenate to [s]. *)
Definition ends_on_final_text (llm : list event -> claude_params -> llm_outcome)
    (cfg : bot_config) (tr : list event) (s : string) : Prop :=
  exists tr0 p bs,
    tr = tr0 ++ [EvQuery p] /\ llm tr0 p = LLMOk bs /\
    (sentry_session cfg = false \/ tool_uses bs = []) /\ final_text bs = s.

Definition last_is_call (tr : list event) : Prop :=
  exists tr0 n i, tr = tr0 ++ [EvCallTool n i].

Lemma last_is_call_not_final llm cfg (tr : list event) (s : string) :
  last_is_call tr -> ~ ends_on_final_text llm cfg tr s.
Proof.
  intros [tr0 [n [i ->]]] [tr1 [p [bs [Heq _]]]].
  apply app_inj_tail in Heq as [_ Heq]. discriminate.
Qed.

Lemma last_is_call_tool_calls (tr : list event) (bs : list block) :
  tool_uses bs <> [] -> last_is_call (tr ++ tool_call_events bs).
Proof.
  intros Hu. unfold tool_call_events.
  destruct (exists_last Hu) as [us [[[id n] i] Heq]].
  rewrite Heq, map_app. exists (tr ++ map (fun '(_, name, input) => EvCallTool name input) us), n, i.
  rewrite app_assoc. reflexivity.
Qed.

Section RunShape.
Variable llm : list event -> claude_params -> llm_outcome.
Variable call_tool : list event -> string -> string -> tool_outcome.
Variable clock : nat -> Z.

Local Abbreviation run_loop := (conversation_loop llm call_tool clock).

Lemma conversation_loop_queries cfg ctx tools (f : nat) :
  forall it msgs (w : world),
  exists rest,
    w_trace (snd (run_loop cfg ctx tools f it msgs w)) = w_trace w ++ rest /\
    Forall (query_extends tools msgs) rest.
Proof.
  induction f as [|f IH]; intros it msgs w.
  - exists []. rewrite app_nil_r. split; [reflexivity | constructor].
  - destruct (Nat.ltb it max_iterations) eqn:Hit.
    2:{ exists []. simpl. rewrite Hit, app_nil_r. split; [reflexivity | constructor]. }
    apply Nat.ltb_lt in Hit.
    assert (Hq : query_extends tools msgs (EvQuery (make_claude_params msgs tools))).
    { simpl. split; [reflexivity|]. split; [reflexivity|]. exists []. symmetry. apply app_nil_r. }
    rewrite conversation_loop_step by exact Hit. cbv zeta.
    destruct (llm (w_trace w) _) as [bs|e].
    2:{ eexists. split; [reflexivity | constructor; [exact Hq | constructor]]. }
    destruct (sentry_session cfg).
    + destruct (run_tool_calls_session call_tool bs false []
                  (mk_world (w_memory w) (w_trace w ++ [EvQuery (make_claude_params msgs tools)])
                     (w_clk w))) as [rs [Heq _]].
      rewrite Heq. simpl orb.
      destruct (tool_uses bs).
      * rewrite final_answer_trace. simpl.
        exists ([EvQuery (make_claude_params msgs tools)] ++ tool_call_events bs).
        rewrite <- app_assoc. split; [reflexivity|].
        apply Forall_app. split; [constructor; [exact Hq | constructor]|].
        apply query_extends_tool_calls.
      * match goal with
        | |- context [run_loop cfg ctx tools f ?i ?ms ?w2] =>
            destruct (IH i ms w2) as [rest [Hr Hall]]
        end.
        rewrite Hr. simpl.
        exists ([EvQuery (make_claude_params msgs tools)] ++ tool_call_events bs ++ rest).
        split; [rewrite !app_assoc; reflexivity|].
        apply Forall_app. split; [constructor; [exact Hq | constructor]|].
        apply Forall_app. split; [apply query_extends_tool_calls|].
        apply (query_extends_longer tools msgs
                 [mk_message "assistant" (MBlocks bs);
                  mk_message "user" (MToolResults ([] ++ rs))]).
        rewrite <- app_assoc in Hall. exact Hall.
    + rewrite run_tool_calls_no_session, final_answer_trace. simpl.
      eexists. split; [reflexivity | constructor; [exact Hq | constructor]].
Qed.

(** How a loop ends: a returned string is never empty; the memory is
    either unchanged or has one more assistant turn holding the returned
    string, stamped at the clock's next read. *)
Lemma conversation_loop_outcome cfg ctx tools (f : nat) :
  forall it msgs (w w' : world) r,
  run_loop cfg ctx tools f it msgs w = (r, w') ->
  (forall s, r = Ok s -> s <> "") /\
  (w_memory w' = w_memory w \/
   exists s, r = Ok s /\
     w_memory w' = add_to_memory (w_memory w) ctx "assistant" s (clock (w_clk w))).
Proof.
  induction f as [|f IH]; intros it msgs w w' r Hrun.
  - injection Hrun as <- <-. split; [|left; reflexivity].
    intros s Hs. injection Hs as <-. discriminate.
  - destruct (Nat.ltb it max_iterations) eqn:Hit.
    2:{ simpl in Hrun. rewrite Hit in Hrun. injection Hrun as <- <-.
        split; [|left; reflexivity]. intros s Hs. injection Hs as <-. discriminate. }
    apply Nat.ltb_lt in Hit.
    rewrite conversation_loop_step in Hrun by exact Hit. cbv zeta in Hrun.
    destruct (llm (w_trace w) _) as [bs|e].
    2:{ injection Hrun as <- <-. split; [discriminate | left; reflexivity]. }
    assert (Hfinal : forall w2 : world, w_memory w2 = w_memory w -> w_clk w2 = w_clk w ->
              ((if String.eqb (final_text bs) "" then mret tt
                else add_to_memory_m clock ctx "assistant" (final_text bs)) ;;
               mret (if String.eqb (final_text bs) "" then fallback_message
                     else final_text bs)) w2 = (r, w') ->
              (forall s, r = Ok s -> s <> "") /\
              (w_memory w' = w_memory w \/
               exists s, r = Ok s /\
                 w_memory w' = add_to_memory (w_memory w) ctx "assistant" s (clock (w_clk w)))).
    { intros w2 Hm Hc Hf. destruct (String.eqb (final_text bs) "") eqn:Hft.
      - injection Hf as <- <-. split; [|left; exact Hm].
        intros s Hs. injection Hs as <-. discriminate.
      - injection Hf as <- <-. split.
        + intros s Hs. injection Hs as <-. intros He. rewrite He in Hft. discriminate.
        + right. eexists. split; [reflexivity|]. simpl. rewrite Hm, Hc. reflexivity. }
    destruct (sentry_session cfg).
    + destruct (run_tool_calls_session call_tool bs false []
                  (mk_world (w_memory w) (w_trace w ++ [EvQuery (make_claude_params msgs tools)])
                     (w_clk w))) as [rs [Heq _]].
      rewrite Heq in Hrun. simpl orb in Hrun.
      destruct (tool_uses bs).
      * refine (Hfinal _ _ _ Hrun); reflexivity.
      * destruct (IH _ _ _ _ _ Hrun) as [Hne Hm]. split; [exact Hne | exact Hm].
    + rewrite run_tool_calls_no_session in Hrun.
      refine (Hfinal _ _ _ Hrun); reflexivity.
Qed.

(** When a loop stores its answer: exactly when it ended on a final
    response with a non-empty text, which is then the answer.  A run that
    starts at its cap must start after a tool call. *)
Lemma conversation_loop_memory cfg ctx tools (f : nat) :
  forall it msgs (w w' : world) r,
  ((it < max_iterations)%nat /\ f <> 0%nat \/ last_is_call (w_trace w)) ->
  run_loop cfg ctx tools f it msgs w = (r, w') ->
  match r with
  | Ok s =>
      (ends_on_final_text llm cfg (w_trace w') s /\
       w_memory w' = add_to_memory (w_memory w) ctx "assistant" s (clock (w_clk w))) \/
      (~ ends_on_final_text llm cfg (w_trace w') s /\ w_memory w' = w_memory w)
  | Exc e =>
      w_memory w' = w_memory w /\
      exists tr p, w_trace w' = tr ++ [EvQuery p] /\ llm tr p = LLMExc e
  end.
Proof.
  induction f as [|f IH]; intros it msgs w w' r Hstart Hrun.
  - injection Hrun as <- <-. right. split; [|reflexivity].
    destruct Hstart as [[_ Hf]|Hc]; [congruence|].
    apply last_is_call_not_final. exact Hc.
  - destruct (Nat.ltb it max_iterations) eqn:Hit.
    2:{ simpl in Hrun. rewrite Hit in Hrun. injection Hrun as <- <-.
        right. split; [|reflexivity].
        destruct Hstart as [[Hlt _]|Hc].
        - apply Nat.ltb_ge in Hit. lia.
        - apply last_is_call_not_final. exact Hc. }
    apply Nat.ltb_lt in Hit.
    destruct (llm (w_trace w) (make_claude_params msgs tools)) as [bs|e] eqn:Hllm.
    2:{ rewrite conversation_loop_step in Hrun by exact Hit. cbv zeta in Hrun.
        rewrite Hllm in Hrun. injection Hrun as <- <-.
        split; [reflexivity|]. exists (w_trace w), (make_claude_params msgs tools).
        split; [reflexivity | exact Hllm]. }
    destruct (sentry_session cfg) eqn:Hs;
      [destruct (tool_uses bs) as [|u us] eqn:Hu|].
    2:{ rewrite conversation_loop_step in Hrun by exact Hit. cbv zeta in Hrun.
        rewrite Hllm, Hs in Hrun.
        destruct (run_tool_calls_session call_tool bs false []
                    (mk_world (w_memory w) (w_trace w ++ [EvQuery (make_claude_params msgs tools)])
                       (w_clk w))) as [rs [Heq _]].
        rewrite Heq, Hu in Hrun. simpl orb in Hrun.
        refine (IH _ _ _ _ _ _ Hrun). right.
        apply last_is_call_tool_calls. rewrite Hu. discriminate. }
    all: assert (Hno : sentry_session cfg = false \/ tool_uses bs = [])
           by (first [left; exact Hs | right; exact Hu]).
    all: rewrite (conversation_loop_final llm call_tool clock cfg ctx tools f it msgs w bs
                    Hit Hllm Hno) in Hrun; cbv zeta in Hrun.
    all: injection Hrun as <- <-; cbn [w_trace w_memory w_clk].
    all: destruct (String.eqb_spec (final_text bs) "") as [Hft|Hft].
    all: try (left; split; [|reflexivity];
              exists (w_trace w), (make_claude_params msgs tools), bs;
              split; [reflexivity|]; split; [exact Hllm|]; split; [exact Hno | reflexivity]).
    all: right; split; [|reflexivity].
    all: intros [tr0 [p [bs0 [Heq [Hl [_ Hf]]]]]].
    all: apply app_inj_tail in Heq as [<- Hp]; injection Hp as <-.
    all: rewrite Hllm in Hl; injection Hl as <-.
    all: rewrite Hft in Hf; discriminate.
Qed.

End RunShape.

Section AskShape.
Variable llm : list event -> claude_params -> llm_outcome.
Variable call_tool : list event -> string -> string -> tool_outcome.
Variable clock : nat -> Z.

Local Abbreviation ask := (ask_claude_with_memory llm call_tool clock).

(** How [ask_claude_with_memory] ends, whatever the services answer. *)
Lemma ask_outcome cfg ctx um (w : world) :
  exists s w', ask cfg ctx um w = (Ok s, w') /\ s <> "" /\
    (w_memory w' = memory_with_user_turn clock w ctx um \/
     w_memory w' = add_to_memory (memory_with_user_turn clock w ctx um) ctx
                     "assistant" s (clock (S (S (w_clk w))))).
Proof.
  unfold ask_claude_with_memory, catch. rewrite ask_body_unfold.
  lazymatch goal with
  | |- context [conversation_loop ?l ?ct ?cl ?a ?b ?c ?d ?e ?f ?g] =>
      destruct (conversation_loop l ct cl a b c d e f g) as [r w'] eqn:Hrun
  end.
  apply conversation_loop_outcome in Hrun. destruct Hrun as [Hne Hm].
  cbn [w_memory w_clk] in Hm. destruct r as [s|e].
  - exists s, w'. split; [reflexivity|]. split; [apply Hne; reflexivity|].
    destruct Hm as [Hm|[s' [Hs Hm]]]; [left; exact Hm|].
    injection Hs as <-. right. exact Hm.
  - exists (error_prefix ++ e)%string, w'. split; [reflexivity|].
    split; [unfold error_prefix; simpl; discriminate|].
    left. destruct Hm as [Hm|[s' [Hs _]]]; [exact Hm | discriminate].
Qed.

(** [ask_claude_with_memory] always answers with a non-empty string: a
    fault of the Claude API becomes the apology, never an exception.  The
    memory then holds the read history plus the user turn, and one more
    assistant turn carrying exactly the answer (stamped at the third clock
    read) exactly when the run ended on a final response whose text is the
    answer; a fallback, too-many-steps or error answer is not stored. *)
Theorem ask_always_answers cfg ctx um (w : world) :
  exists s w', ask cfg ctx um w = (Ok s, w') /\ s <> "" /\
    (ends_on_final_text llm cfg (w_trace w') s ->
     w_memory w' = add_to_memory (memory_with_user_turn clock w ctx um) ctx
                     "assistant" s (clock (S (S (w_clk w))))) /\
    (~ ends_on_final_text llm cfg (w_trace w') s ->
     w_memory w' = memory_with_user_turn clock w ctx um).
Proof.
  unfold ask_claude_with_memory, catch. rewrite ask_body_unfold.
  lazymatch goal with
  | |- context [conversation_loop ?l ?ct ?cl ?a ?b ?c ?d ?e ?f ?g] =>
      destruct (conversation_loop l ct cl a b c d e f g) as [r w'] eqn:Hrun
  end.
  pose proof Hrun as Hout. apply conversation_loop_outcome in Hout.
  destruct Hout as [Hne _].
  apply conversation_loop_memory in Hrun;
    [|left; split; [unfold max_iterations; lia | discriminate]].
  cbn [w_memory w_clk] in Hrun. destruct r as [s|e].
  - exists s, w'. split; [reflexivity|]. split; [apply Hne; reflexivity|].
    destruct Hrun as [[Hf Hm]|[Hnf Hm]].
    + split; [intros _; exact Hm | intros Hn; contradiction].
    + split; [intros Hf; contradiction | intros _; exact Hm].
  - exists (error_prefix ++ e)%string, w'. split; [reflexivity|].
    split; [unfold error_prefix; simpl; discriminate|].
    destruct Hrun as [Hm [tr [p [Htr Hl]]]].
    split; [|intros _; exact Hm].
    intros [tr0 [p0 [bs [Heq [Hl0 _]]]]]. rewrite Htr in Heq.
    apply app_inj_tail in Heq as [<- Hp]. injection Hp as <-.
    rewrite Hl in Hl0. discriminate.
Qed.

Lemma ask_queries cfg ctx um (w : world) :
  exists rest,
    w_trace (snd (ask cfg ctx um w)) = w_trace w ++ rest /\
    Forall (query_extends (offered_tools cfg)
              (snd (get_conversation_history (w_memory w) ctx (clock (w_clk w)))
                 ++ [mk_message "user" (MText um)])) rest.
Proof.
  rewrite ask_world, ask_body_unfold.
  destruct (conversation_loop_queries llm call_tool clock cfg ctx (offered_tools cfg)
              max_iterations 0 (initial_messages clock w ctx um)
              (mk_world (memory_with_user_turn clock w ctx um) (w_trace w) (S (S (w_clk w)))))
    as [rest [Hr Hall]].
  exists rest. split; [exact Hr | exact Hall].
Qed.

(** Every Claude query that [ask_claude_with_memory] makes is sent the
    system prompt, the tools as they were when the call began (no "tools"
    field when none are offered), and a message list that starts with the
    history read at the start followed by the user's message; the calls
    are appended to the trace, nothing before is changed. *)
Theorem ask_queries_extend_history cfg ctx um (w : world) :
  exists rest,
    w_trace (snd (ask cfg ctx um w)) = w_trace w ++ rest /\
    Forall (query_extends (offered_tools cfg)
              (snd (get_conversation_history (w_memory w) ctx (clock (w_clk w)))
                 ++ [mk_message "user" (MText um)])) rest.
Proof.
  apply ask_queries.
Qed.

(** [ask_claude_with_memory] only touches the memory of its own
    (user, channel) key: every other key holds the same turns after it. *)
Theorem ask_touches_only_its_context cfg ctx ctx' um (w : world) :
  get_memory_key ctx <> get_memory_key ctx' ->
  mem_get (w_memory (snd (ask cfg ctx um w))) (get_memory_key ctx')
  = mem_get (w_memory w) (get_memory_key ctx').
Proof.
  intros Hne. destruct (ask_outcome cfg ctx um w) as [s [w' [Hask [_ Hm]]]].
  rewrite Hask. simpl snd.
  assert (Hu : mem_get (memory_with_user_turn clock w ctx um) (get_memory_key ctx')
               = mem_get (w_memory w) (get_memory_key ctx')).
  { exact (eq_trans
             (run_mem_op_other_key _ (OpAdd ctx "user" um (clock (S (w_clk w)))) _ Hne)
             (run_mem_op_other_key _ (OpRead ctx (clock (w_clk w))) _ Hne)). }
  destruct Hm as [-> | ->]; [exact Hu|].
  exact (eq_trans
           (run_mem_op_other_key _ (OpAdd ctx "assistant" s (clock (S (S (w_clk w))))) _ Hne)
           Hu).
Qed.

End AskShape.

(** After a successful handshake that lists the tools [ts], [status]
    reports their number, and every Claude query of a later
    [ask_claude_with_memory] offers exactly [ts] (no "tools" field when the
    list is empty). *)
Theorem handshake_tools_offered
    (llm : list event -> claude_params -> llm_outcome)
    (call_tool : list event -> string -> string -> tool_outcome)
    (clock : nat -> Z) (cfg0 : bot_config) (ts : list tool_desc) ctx um (w : world) :
  let cfg := connect_to_sentry cfg0 (HandshakeOk ts) in
  status cfg = ("‚úÖ Connected to Sentry with " ++ pretty (length ts)
                  ++ " tools available")%string /\
  exists rest,
    w_trace (snd (ask_claude_with_memory llm call_tool clock cfg ctx um w))
      = w_trace w ++ rest /\
    Forall (fun ev => forall p, ev = EvQuery p ->
              cp_tools p = match ts with [] => None | _ => Some ts end) rest.
Proof.
  intros cfg. split; [reflexivity|].
  destruct (ask_queries llm call_tool clock cfg ctx um w) as [rest [Hr Hall]].
  exists rest. split; [exact Hr|].
  eapply Forall_impl; [exact Hall|]. intros ev Hq p ->.
  destruct Hq as [Ht _]. rewrite Ht. reflexivity.
Qed.

(* ------------------------------------------------------------------ *)
(** * Further properties of the dispatch and of [on_message] *)

Section DispatchShape.
Context {char : Type}.
Local Open Scope nat_scope.

Lemma range_go_full_chunks (s : list char) (fuel i : nat) :
  i < length s -> length s - i <= fuel ->
  exists full last,
    map (fun j => py_slice s j (j + discord_limit))
        (range_go fuel i (length s) discord_limit) = full ++ [last] /\
    Forall (fun c => length c = discord_limit) full /\
    0 < length last <= discord_limit.
Proof.
  revert i. induction fuel as [|f IH]; intros i Hi Hf; [lia|].
  cbn [range_go]. replace (Nat.ltb i (length s)) with true
    by (symmetry; apply Nat.ltb_lt; exact Hi).
  assert (Hlen : length (py_slice s i (i + discord_limit))
                 = Nat.min discord_limit (length s - i)).
  { unfold py_slice. rewrite length_firstn, length_skipn. f_equal. lia. }
  destruct (Nat.ltb (i + discord_limit) (length s)) eqn:Hnext.
  - apply Nat.ltb_lt in Hnext.
    destruct (IH (i + discord_limit)) as [full [last [Heq [Hfull Hlast]]]];
      [exact Hnext | unfold discord_limit in *; lia |].
    exists (py_slice s i (i + discord_limit) :: full), last.
    cbn [map]. rewrite Heq. split; [reflexivity|]. split; [|exact Hlast].
    constructor; [|exact Hfull]. rewrite Hlen. unfold discord_limit in *. lia.
  - apply Nat.ltb_ge in Hnext.
    assert (Hnil : range_go f (i + discord_limit) (length s) discord_limit = []).
    { destruct f; cbn [range_go]; [reflexivity|].
      replace (Nat.ltb (i + discord_limit) (length s)) with false
        by (symmetry; apply Nat.ltb_ge; exact Hnext).
      reflexivity. }
    rewrite Hnil. exists [], (py_slice s i (i + discord_limit)).
    split; [reflexivity|]. split; [constructor|].
    rewrite Hlen. unfold discord_limit in *. lia.
Qed.

Lemma dispatch_shape (s : list char) :
  s <> [] ->
  exists full last, dispatch s = full ++ [last] /\
    Forall (fun c => length c = 2000) full /\ 0 < length last <= 2000.
Proof.
  intros Hs. assert (Hpos : 0 < length s) by (destruct s; [congruence | simpl; lia]).
  unfold dispatch. destruct (Nat.ltb discord_limit (length s)) eqn:Hlt.
  - unfold py_range. apply range_go_full_chunks; lia.
  - apply Nat.ltb_ge in Hlt. exists [], s.
    split; [reflexivity|]. split; [constructor|]. unfold discord_limit in Hlt. lia.
Qed.

End DispatchShape.

(** A non-empty response is sent as one or more non-empty chunks, all of
    exactly 2000 characters except the last, which has 1 to 2000: with
    claim C7 (the chunks concatenate to the response) this fixes the
    chunking, and a response of length n > 0 takes the least k with
    n <= 2000 k messages. *)
Theorem dispatch_full_chunks {char : Type} (s : list char) :
  s <> [] ->
  exists full last, dispatch s = full ++ [last] /\
    Forall (fun c => length c = 2000)%nat full /\ (0 < length last <= 2000)%nat.
Proof. apply dispatch_shape. Qed.

(** The code-point reading of strings on examples: one to four byte
    characters read back, [str.strip()] removes U+00A0 and U+2003, and an
    answer of 1001 "é" (2002 bytes) is sent as one message. *)
Lemma py_str_examples :
  py_str (of_py_str [65; 233; 8364; 128512]) = [65; 233; 8364; 128512] /\
  py_str "é€" = [233; 8364] /\
  str_strip (of_py_str [160; 104; 105; 8195; 10]) = "hi" /\
  length (reply_chunks (of_py_str (repeat 233 1001))) = 1%nat /\
  length (reply_chunks (of_py_str (repeat 233 2001))) = 2%nat.
Proof. vm_compute. repeat split; reflexivity. Qed.

Lemma utf8_decode_nonempty (bs : list Z) : bs <> [] -> utf8_decode bs <> [].
Proof.
  destruct bs as [|b rest]; [congruence|]. intros _. cbn [utf8_decode].
  destruct (b <? 128); [discriminate|].
  destruct ((194 <=? b) && (b <? 224)).
  { destruct rest as [|c1 r1]; [discriminate|]. destruct (is_cont c1); discriminate. }
  destruct ((224 <=? b) && (b <? 240)).
  { destruct rest as [|c1 [|c2 r2]]; try discriminate.
    destruct (is_cont c1 && is_cont c2); discriminate. }
  destruct ((240 <=? b) && (b <? 245)); [|discriminate].
  destruct rest as [|c1 [|c2 [|c3 r3]]]; try discriminate.
  cbv zeta. destruct (_ && _); discriminate.
Qed.

(** The strings [message.reply] sends for a non-empty response, as the
    code-point sequences (Python strings) they encode. *)
Lemma reply_chunks_shape (s : string) :
  s <> "" ->
  exists chunks, reply_chunks s = map (fun c => Reply (of_py_str c)) chunks /\
    chunks <> [] /\
    Forall (fun c => c <> [] /\ (length c <= 2000)%nat) chunks /\
    concat chunks = py_str s.
Proof.
  intros Hs. exists (dispatch (py_str s)). split; [reflexivity|].
  assert (Hl : py_str s <> []).
  { unfold py_str. apply utf8_decode_nonempty. destruct s; [congruence | discriminate]. }
  destruct (dispatch_shape _ Hl) as [full [last [Hd [Hfull Hlast]]]].
  split; [rewrite Hd; destruct full; discriminate|].
  split; [|apply dispatch_concat].
  rewrite Hd. apply Forall_app. split.
  - eapply Forall_impl; [exact Hfull|]. intros c Hc.
    cbv beta in Hc. split; [destruct c; [discriminate Hc | discriminate] | lia].
  - constructor; [|constructor].
    split; [destruct last; [simpl in Hlast; lia | discriminate] | lia].
Qed.

(** [on_message] does nothing for a message from the bot itself, a
    command, a message that neither mentions the bot nor is a direct
    message, or one from another server: it at most hands the message to
    the command processor, or raises (a direct message, in the guild
    filter), and never queries Claude, calls a tool or touches the memory
    (the state is returned unchanged). *)
Theorem on_message_ignores_ineligible
    (llm : list event -> claude_params -> llm_outcome)
    (call_tool : list event -> string -> string -> tool_outcome)
    (clock : nat -> Z) (cfg : bot_config) (bot_id server_id : Z)
    (message : discord_message) (w : world) :
  msg_from_self message = true \/
  String.prefix command_prefix (msg_content message) = true \/
  (msg_mentions_bot message || msg_is_dm message) = false \/
  (exists g, msg_guild message = Some g /\ g <> server_id) ->
  (exists acts,
     on_message llm call_tool clock cfg bot_id server_id message w = (Ok acts, w) /\
     Forall (fun a => a = ProcessCommands) acts) \/
  (msg_guild message = None /\
   exists e, on_message llm call_tool clock cfg bot_id server_id message w = (Exc e, w)).
Proof.
  intros H. unfold on_message.
  destruct (msg_from_self message) eqn:Hself.
  { left. exists []. split; [reflexivity | constructor]. }
  destruct (msg_guild message) as [g|] eqn:Hg.
  2:{ right. split; [reflexivity|]. eexists. reflexivity. }
  left. destruct (Z.eqb_spec g server_id) as [->|Hne]; simpl negb; cbv iota.
  2:{ exists []. split; [reflexivity | constructor]. }
  destruct (String.prefix command_prefix (msg_content message)) eqn:Hp.
  { exists [ProcessCommands]. split; [reflexivity | repeat constructor]. }
  destruct H as [H|[H|[H|[g' [Hg' Hne]]]]]; [discriminate | discriminate | |].
  - rewrite H. exists [ProcessCommands]. split; [reflexivity | repeat constructor].
  - injection Hg' as <-. congruence.
Qed.

(** An eligible message (from another user, in the configured server, not
    a command, mentioning the bot or a direct message) asks Claude once
    with a non-empty question: the content without the bot's mention,
    stripped, or "Hello!" when nothing is left.  It then hands the message
    to the command processor and replies with one or more non-empty chunks
    of at most 2000 characters (code points) that concatenate to the
    (non-empty) answer; the state is the one the ask left. *)
Theorem on_message_answers_eligible
    (llm : list event -> claude_params -> llm_outcome)
    (call_tool : list event -> string -> string -> tool_outcome)
    (clock : nat -> Z) (cfg : bot_config) (bot_id server_id : Z)
    (message : discord_message) (w : world) :
  msg_from_self message = false ->
  msg_guild message = Some server_id ->
  String.prefix command_prefix (msg_content message) = false ->
  (msg_mentions_bot message || msg_is_dm message) = true ->
  let c := str_strip (str_replace (msg_content message)
                        ("<@" ++ pretty bot_id ++ ">")%string "") in
  let q := if String.eqb c "" then greeting else c in
  q <> "" /\
  exists s chunks w',
    ask_claude_with_memory llm call_tool clock cfg
      (mk_context (msg_author message) (msg_channel message)) q w = (Ok s, w') /\
    on_message llm call_tool clock cfg bot_id server_id message w
      = (Ok (ProcessCommands :: map (fun c => Reply (of_py_str c)) chunks), w') /\
    s <> "" /\ chunks <> [] /\
    Forall (fun c => c <> [] /\ (length c <= 2000)%nat) chunks /\
    concat chunks = py_str s.
Proof.
  intros Hself Hg Hp Hm c q. split.
  { unfold q. destruct (String.eqb_spec c "") as [_|Hc]; [discriminate | exact Hc]. }
  destruct (ask_outcome llm call_tool clock cfg
              (mk_context (msg_author message) (msg_channel message)) q w)
    as [s [w' [Hask [Hs _]]]].
  destruct (reply_chunks_shape s Hs) as [chunks [Hr [Hne [Hall Hcat]]]].
  exists s, chunks, w'. split; [exact Hask|]. split.
  - unfold on_message. rewrite Hself, Hg, Z.eqb_refl, Hp, Hm.
    unfold mbind, M_bind. cbv [negb]. cbv beta iota zeta. unfold q, c in Hask.
    rewrite Hask, <- Hr. reflexivity.
  - split; [exact Hs|]. split; [exact Hne|]. split; [exact Hall | exact Hcat].
Qed.

(* ------------------------------------------------------------------ *)
(** * [bot.py]: [SentryBot.ask_claude], the bot without memory

    [bot.py] runs the same tool loop as [main.py] but sends no system
    prompt, keeps no memory and reads no clock.  Its state is the trace of
    external calls alone.  The tool-result rendering, the final-text
    concatenation and the offered tools are the same code as in [main.py]
    and reuse [render_tool_outcome], [final_text] and [offered_tools]. *)

Module BotPy.

(** The keyword arguments of [claude_client.messages.create] in [bot.py]. *)
Record claude_params := mk_claude_params {
  cp_model : string;
  cp_max_tokens : nat;
  cp_messages : list message;
  cp_tools : option (list tool_desc)
}.

Inductive event :=
  | EvQuery (p : claude_params)
  | EvCallTool (name input : string).

Definition M (A : Type) : Type := list event -> result A * list event.

Global Instance M_ret : MRet M := fun A a tr => (Ok a, tr).
Global Instance M_bind : MBind M := fun A B k c tr =>
  match c tr with
  | (Ok a, tr') => k a tr'
  | (Exc e, tr') => (Exc e, tr')
  end.

Definition catch {A} (c : M A) (h : string -> M A) : M A := fun tr =>
  match c tr with
  | (Ok a, tr') => (Ok a, tr')
  | (Exc e, tr') => h e tr'
  end.

Fixpoint count_queries (tr : list event) : nat :=
  match tr with
  | [] => 0
  | EvQuery _ :: rest => S (count_queries rest)
  | EvCallTool _ _ :: rest => count_queries rest
  end.

Section Bot.

Variable llm : list event -> claude_params -> llm_outcome.
Variable call_tool : list event -> string -> string -> tool_outcome.

Definition query_llm (p : claude_params) : M (list block) := fun tr =>
  match llm tr p with
  | LLMOk bs => (Ok bs, tr ++ [EvQuery p])
  | LLMExc e => (Exc e, tr ++ [EvQuery p])
  end.

Definition call_tool_m (name input : string) : M tool_outcome := fun tr =>
  (Ok (call_tool tr name input), tr ++ [EvCallTool name input]).

Fixpoint run_tool_calls (session : bool) (bs : list block)
    (tool_calls_made : bool) (tool_results : list tool_result)
    : M (bool * list tool_result) :=
  match bs with
  | [] => mret (tool_calls_made, tool_results)
  | ToolUseBlock id name input :: rest =>
      if session then
        o ← call_tool_m name input;
        run_tool_calls session rest true
          (tool_results ++ [mk_tool_result id (render_tool_outcome o)])
      else run_tool_calls session rest tool_calls_made tool_results
  | _ :: rest => run_tool_calls session rest tool_calls_made tool_results
  end.

(** [claude_params], with ["tools"] only when [tools] is non-empty. *)
Definition make_claude_params (messages : list message) (tools : list tool_desc)
    : claude_params :=
  mk_claude_params claude_model 1000 messages
    (match tools with [] => None | _ => Some tools end).

(** The [while iteration < max_iterations] loop of [ask_claude]. *)
Fixpoint conversation_loop (session : bool) (tools : list tool_desc)
    (fuel iteration : nat) (messages : list message) : M string :=
  match fuel with
  | O => mret too_many_steps_message
  | S fuel' =>
      if Nat.ltb iteration max_iterations then
        let iteration := S iteration in
        content ← query_llm (make_claude_params messages tools);
        let messages := messages ++ [mk_message "assistant" (MBlocks content)] in
        '((made, tool_results) : bool * list tool_result) ←
          run_tool_calls session content false [];
        if made then
          conversation_loop session tools fuel' iteration
            (messages ++ [mk_message "user" (MToolResults tool_results)])
        else
          let ft := final_text content in
          mret (if String.eqb ft "" then fallback_message else ft)
      else mret too_many_steps_message
  end.

Definition ask_claude (cfg : bot_config) (user_message : string) : M string :=
  catch (conversation_loop (sentry_session cfg) (offered_tools cfg) max_iterations 0
           [mk_message "user" (MText user_message)])
    (fun e => mret (error_prefix ++ e)%string).

End Bot.

(** What a query of a run is sent: the tools snapshot and a message list
    that extends [msgs]. *)
Definition query_from (tools : list tool_desc) (msgs : list message) (ev : event)
    : Prop :=
  match ev with
  | EvQuery p =>
      cp_tools p = cp_tools (make_claude_params [] tools) /\
      exists sfx, cp_messages p = msgs ++ sfx
  | EvCallTool _ _ => True
  end.

Section Runs.
Variable llm : list event -> claude_params -> llm_outcome.
Variable call_tool : list event -> string -> string -> tool_outcome.
Local Open Scope nat_scope.

Lemma run_tool_calls_calls session (bs : list block) :
  forall made acc tr, exists made' acc' evs,
    run_tool_calls call_tool session bs made acc tr = (Ok (made', acc'), tr ++ evs) /\
    Forall (fun ev => exists n i, ev = EvCallTool n i) evs.
Proof.
  induction bs as [|b bs IH]; intros made acc tr.
  - exists made, acc, []. rewrite app_nil_r. split; [reflexivity | constructor].
  - destruct b as [t|id n i|t]; simpl; try apply IH.
    destruct session; [|apply IH].
    unfold mbind, M_bind, call_tool_m.
    destruct (IH true (acc ++ [mk_tool_result id (render_tool_outcome (call_tool tr n i))])
                (tr ++ [EvCallTool n i])) as [made' [acc' [evs [Heq Hall]]]].
    exists made', acc', (EvCallTool n i :: evs). rewrite Heq, <- app_assoc.
    split; [reflexivity|]. constructor; [eauto | exact Hall].
Qed.

Lemma tool_call_events_shape tools msgs (evs : list event) :
  Forall (fun ev => exists n i, ev = EvCallTool n i) evs ->
  count_queries evs = 0 /\ Forall (query_from tools msgs) evs.
Proof.
  induction 1 as [|ev evs [n [i ->]] _ [Hc Hq]]; simpl.
  - split; [reflexivity | constructor].
  - split; [exact Hc | constructor; [exact I | exact Hq]].
Qed.

Lemma bot_count_queries_app (t1 t2 : list event) :
  count_queries (t1 ++ t2) = count_queries t1 + count_queries t2.
Proof. induction t1 as [|[p|n i] t1 IH]; simpl; rewrite ?IH; reflexivity. Qed.

Lemma query_from_longer tools msgs extra (tr : list event) :
  Forall (query_from tools (msgs ++ extra)) tr -> Forall (query_from tools msgs) tr.
Proof.
  intros Hall. eapply Forall_impl; [exact Hall|]. intros [p|n i]; simpl; [|tauto].
  intros [Ht [sfx Hm]]. split; [exact Ht|].
  exists (extra ++ sfx). rewrite Hm, app_assoc. reflexivity.
Qed.

Lemma conversation_loop_run session tools (f : nat) :
  forall it msgs tr, exists r rest,
    conversation_loop llm call_tool session tools f it msgs tr = (r, tr ++ rest) /\
    (forall s, r = Ok s -> s <> "") /\
    (count_queries rest <= f)%nat /\
    Forall (query_from tools msgs) rest.
Proof.
  induction f as [|f IH]; intros it msgs tr.
  - exists (Ok too_many_steps_message), []. rewrite app_nil_r.
    split; [reflexivity|]. split; [|split; [simpl; lia | constructor]].
    intros s Hs. injection Hs as <-. discriminate.
  - cbn [conversation_loop]. destruct (Nat.ltb it max_iterations).
    2:{ exists (Ok too_many_steps_message), []. rewrite app_nil_r.
        split; [reflexivity|]. split; [|split; [simpl; lia | constructor]].
        intros s Hs. injection Hs as <-. discriminate. }
    assert (Hq : query_from tools msgs (EvQuery (make_claude_params msgs tools))).
    { simpl. split; [reflexivity|]. exists []. symmetry. apply app_nil_r. }
    unfold mbind at 1, M_bind at 1, query_llm. cbv zeta.
    destruct (llm tr (make_claude_params msgs tools)) as [bs|e].
    2:{ exists (Exc e), [EvQuery (make_claude_params msgs tools)].
        split; [reflexivity|]. split; [discriminate|].
        split; [simpl; lia | constructor; [exact Hq | constructor]]. }
    unfold mbind, M_bind.
    destruct (run_tool_calls_calls session bs false []
                (tr ++ [EvQuery (make_claude_params msgs tools)]))
      as [made [acc [evs [Heq Hevs]]]].
    rewrite Heq.
    destruct (tool_call_events_shape tools msgs evs Hevs) as [Hc Hqe].
    destruct made.
    + destruct (IH (S it)
                  ((msgs ++ [mk_message "assistant" (MBlocks bs)])
                     ++ [mk_message "user" (MToolResults acc)])
                  ((tr ++ [EvQuery (make_claude_params msgs tools)]) ++ evs))
        as [r [rest [Hrun [Hne [Hcnt Hall]]]]].
      rewrite Hrun. exists r, ([EvQuery (make_claude_params msgs tools)] ++ evs ++ rest).
      split; [rewrite !app_assoc; reflexivity|]. split; [exact Hne|].
      split.
      * rewrite !bot_count_queries_app, Hc. simpl. lia.
      * apply Forall_app. split; [constructor; [exact Hq | constructor]|].
        apply Forall_app. split; [exact Hqe|].
        rewrite <- app_assoc in Hall. exact (query_from_longer _ _ _ _ Hall).
    + exists (Ok (if String.eqb (final_text bs) "" then fallback_message else final_text bs)),
        ([EvQuery (make_claude_params msgs tools)] ++ evs).
      split; [rewrite app_assoc; reflexivity|].
      split.
      * intros s Hs. injection Hs as <-.
        destruct (String.eqb_spec (final_text bs) "") as [_|Hft]; [discriminate | exact Hft].
      * split.
        -- rewrite bot_count_queries_app, Hc. simpl. lia.
        -- apply Forall_app. split; [constructor; [exact Hq | constructor] | exact Hqe].
Qed.

End Runs.

(** [bot.py]'s [ask_claude] always answers with a non-empty string (an
    exception of the Claude API becomes the apology), makes at most 10
    Claude queries, and every query is sent the tools offered when the call
    began (no "tools" field when none) and a message list that starts with
    the user's message, with no earlier history. *)
Theorem ask_claude_answers
    (llm : list event -> claude_params -> llm_outcome)
    (call_tool : list event -> string -> string -> tool_outcome)
    (cfg : bot_config) (um : string) (tr : list event) :
  exists s rest,
    ask_claude llm call_tool cfg um tr = (Ok s, tr ++ rest) /\ s <> "" /\
    (count_queries rest <= 10)%nat /\
    Forall (query_from (offered_tools cfg) [mk_message "user" (MText um)]) rest.
Proof.
  unfold ask_claude, catch.
  destruct (conversation_loop_run llm call_tool (sentry_session cfg) (offered_tools cfg)
              max_iterations 0 [mk_message "user" (MText um)] tr)
    as [r [rest [Hrun [Hne [Hcnt Hall]]]]].
  rewrite Hrun. destruct r as [s|e].
  - exists s, rest. split; [reflexivity|]. split; [apply Hne; reflexivity|].
    split; [exact Hcnt | exact Hall].
  - exists (error_prefix ++ e)%string, rest. split; [reflexivity|].
    split; [unfold error_prefix; simpl; discriminate|]. split; [exact Hcnt | exact Hall].
Qed.

End BotPy.

(* ------------------------------------------------------------------ *)
(** * Witnesses of the further properties *)

(** Another user in the same channel, and the same user in another channel. *)
Definition other_user_ctx : context := mk_context "1" "77".
Definition other_channel_ctx : context := mk_context "4242" "78".

Lemma memory_isolated_between_contexts_witness :
  mem_get (run_mem_ops forward_clock_memory
             [OpAdd other_user_ctx "user" "hi" 2; OpRead other_channel_ctx 3;
              OpForget other_user_ctx])
          (get_memory_key demo_ctx)
  = mem_get forward_clock_memory (get_memory_key demo_ctx).
Proof.
  apply memory_isolated_between_contexts; [reflexivity|].
  repeat constructor; intros H; discriminate H.
Defined.

Lemma reads_compose_witness :
  get_conversation_history
    (fst (get_conversation_history forward_clock_memory demo_ctx (memory_timeout + 1)))
    demo_ctx (memory_timeout + 2)
  = get_conversation_history forward_clock_memory demo_ctx (memory_timeout + 2).
Proof. apply reads_compose. lia. Defined.

Lemma added_turn_is_read_back_witness :
  exists older,
    snd (get_conversation_history (add_to_memory forward_clock_memory demo_ctx "user" "c" 5)
           demo_ctx (memory_timeout + 5))
    = older ++ [mk_message "user" (MText "c")].
Proof. apply added_turn_is_read_back. lia. Defined.

Lemma ask_touches_only_its_context_witness :
  mem_get (w_memory (snd (ask_claude_with_memory demo_llm demo_call_tool demo_clock
                            demo_cfg demo_ctx "what is issue PROJ-123"
                            (mk_world forward_clock_memory [] 0))))
          (get_memory_key other_channel_ctx)
  = mem_get forward_clock_memory (get_memory_key other_channel_ctx).
Proof.
  apply ask_touches_only_its_context.
  intros H. vm_compute in H. discriminate H.
Defined.

Lemma dispatch_full_chunks_witness :
  exists full last, dispatch (repeat 0%nat 4500) = full ++ [last] /\
    Forall (fun c => length c = 2000)%nat full /\ (0 < length last <= 2000)%nat.
Proof. apply dispatch_full_chunks. intros H. discriminate H. Defined.

(** A command in the configured server, and a mention of the bot there. *)
Definition demo_command : discord_message :=
  mk_discord_message false "4242" "77" (Some 5) "!ask what is issue PROJ-123" true false.
Definition demo_dm_command : discord_message :=
  mk_discord_message false "4242" "77" None "!ask what is issue PROJ-123" false true.
Definition demo_mention : discord_message :=
  mk_discord_message false "4242" "77" (Some 5) "<@1> what is issue PROJ-123" true false.

Lemma on_message_ignores_ineligible_witness :
  (exists acts,
     on_message demo_llm demo_call_tool demo_clock demo_cfg 1 5 demo_dm_command demo_world
       = (Ok acts, demo_world) /\
     Forall (fun a => a = ProcessCommands) acts) \/
  (msg_guild demo_dm_command = None /\
   exists e, on_message demo_llm demo_call_tool demo_clock demo_cfg 1 5 demo_dm_command
               demo_world = (Exc e, demo_world)).
Proof.
  apply on_message_ignores_ineligible.
  right. left. reflexivity.
Defined.

Lemma on_message_answers_eligible_witness :
  exists s chunks w',
    on_message demo_llm demo_call_tool demo_clock demo_cfg 1 5 demo_mention demo_world
      = (Ok (ProcessCommands :: map (fun c => Reply (of_py_str c)) chunks), w') /\
    s <> "" /\ chunks <> [].
Proof.
  destruct (on_message_answers_eligible demo_llm demo_call_tool demo_clock demo_cfg 1 5
              demo_mention demo_world)
    as [_ [s [chunks [w' [_ [Hon [Hs [Hne _]]]]]]]];
    [reflexivity | reflexivity | reflexivity | reflexivity |].
  exists s, chunks, w'. split; [exact Hon|]. split; [exact Hs | exact Hne].
Defined.
